(** * todo-app: the command-line pipeline of [main.go]

    [main.go] reads one flag value, deserialises it with [encoding/json],
    parses the optional due date with [time.Parse], and echoes the parsed
    item with [json.MarshalIndent] and [fmt.Printf].  The four functions of
    the program ([parseDuedate], [ParseInput], [PrettyPrintItem], [main])
    are embedded below over a model of the Go packages they call.

    Go strings are byte sequences: they are [string] here, one [ascii] per
    byte.  A Go [int] never leaves the range of a few digits in this
    program, so it is a [Z]. *)

From Stdlib Require Import String Ascii List ZArith Lia Bool.
Import ListNotations.

Local Open Scope string_scope.
Local Open Scope Z_scope.

(** ** Bytes *)

Definition code (c : ascii) : Z := Z.of_N (N_of_ascii c).
Definition chr (z : Z) : ascii := ascii_of_N (Z.to_N z).

Definition DQ : ascii := "034"%char.   (* the double quote *)
Definition LF : ascii := "010"%char.   (* \n *)
Definition CR : ascii := "013"%char.   (* \r *)
Definition TAB : ascii := "009"%char.  (* \t *)
Definition BS : ascii := "008"%char.   (* \b *)
Definition FF : ascii := "012"%char.   (* \f *)

Definition str1 (c : ascii) : string := String c EmptyString.

Definition len (s : string) : Z := Z.of_nat (String.length s).

(** [isDigit]: a byte between '0' and '9'. *)
Definition isDigit (c : ascii) : bool := (48 <=? code c) && (code c <=? 57).
Definition digitVal (c : ascii) : Z := code c - 48.
Definition digitChr (d : Z) : ascii := chr (48 + d).

(** [contains sub s]: [sub] occurs in [s] as a contiguous run of bytes
    (Go's [strings.Contains]). *)
Fixpoint contains (sub s : string) : bool :=
  String.prefix sub s ||
  match s with
  | EmptyString => false
  | String _ r => contains sub r
  end.

(** ** The process: standard streams, exit status

    The program's effects are a write to standard output ([fmt.Printf]),
    a write to standard error and an exit ([log.Fatal]).  What the program
    cannot control is in [Env]: the header the standard logger puts before
    a message (its default flags print the local date and time), how many
    bytes the operating system accepts on standard output and with what
    error, and whether the process was started with SIGPIPE ignored.
    Standard error is taken to accept what is written to it. *)

(** A Go [error]: the broken pipe of the operating system, which the
    runtime looks for, or any other, with its text. *)
Inductive error :=
| EPIPE
| ErrorString (text : string).

(** [err.Error()]. *)
Definition error_Error (err : error) : string :=
  match err with
  | EPIPE => "broken pipe"
  | ErrorString text => text
  end.

Record Env := {
  log_header : string;
  stdout_write : string -> Z * option error;
  sigpipe_ignored : bool
}.

(** The signal of a write to a pipe that nobody reads, and the status
    with which a process ended by a signal shows to the shell that
    started it. *)
Definition SIGPIPE : Z := 13.
Definition killed_by (signal : Z) : Z := 128 + signal.

Record Streams := { stdout : string; stderr : string }.

Definition no_output : Streams := {| stdout := ""; stderr := "" |}.

(** A computation returns to its caller, or the process has ended: by
    [os.Exit(status)], or by a signal, in which case the status is
    [killed_by] that signal. *)
Inductive Outcome (A : Type) : Type :=
| Returns (a : A) (w : Streams)
| Exits (status : Z) (w : Streams).
Arguments Returns {A} a w.
Arguments Exits {A} status w.

Definition Proc (A : Type) : Type := Env -> Streams -> Outcome A.

Definition ret {A} (a : A) : Proc A := fun _ w => Returns a w.

Definition bind {A B} (m : Proc A) (k : A -> Proc B) : Proc B :=
  fun e w =>
    match m e w with
    | Returns a w' => k a e w'
    | Exits st w' => Exits st w'
    end.

Notation "x <- m ;; k" := (bind m (fun x => k))
  (at level 61, m at next level, right associativity).

Definition exit_status {A} (o : Outcome A) : Z :=
  match o with
  | Returns _ _ => 0
  | Exits st _ => st
  end.

Definition streams {A} (o : Outcome A) : Streams :=
  match o with
  | Returns _ w => w
  | Exits _ w => w
  end.

(** [log.Fatal(msg)]: [log.Print(msg)] followed by [os.Exit(1)].  The line
    on standard error is the logger's header, the message, a newline. *)
Definition log_Fatal {A} (msg : string) : Proc A :=
  fun e w =>
    Exits 1 {| stdout := stdout w;
               stderr := stderr w ++ log_header e ++ msg ++ str1 LF |}.

(** The first [n] bytes of [s], or all of it when it is shorter. *)
Fixpoint take (n : nat) (s : string) : string :=
  match n, s with
  | S n', String c r => String c (take n' r)
  | _, _ => EmptyString
  end.

(** A write of [text] to [os.Stdout]: the device reports how many bytes
    it took and an error, if any; those bytes reach the stream.  When the
    error is [EPIPE] the file is standard output, and the Go runtime then
    raises SIGPIPE ([epipecheck]): unless the signal is ignored the
    process ends there, and the write never returns. *)
Definition os_Stdout_Write (text : string) : Proc (Z * option error) :=
  fun e w =>
    let '(n, err) := stdout_write e text in
    let w' := {| stdout := stdout w ++ take (Z.to_nat n) text;
                 stderr := stderr w |} in
    match err with
    | Some EPIPE =>
        if sigpipe_ignored e then Returns (n, err) w'
        else Exits (killed_by SIGPIPE) w'
    | _ => Returns (n, err) w'
    end.

(** [fmt.Sprintf] for formats whose only verb is [%s] (and [%%]). *)
Fixpoint fmt_Sprintf (format : string) (args : list string) : string :=
  match format with
  | String "%" (String "s" r) =>
      match args with
      | a :: args' => a ++ fmt_Sprintf r args'
      | [] => "%!s(MISSING)" ++ fmt_Sprintf r []
      end
  | String "%" (String "%" r) => String "%" (fmt_Sprintf r args)
  | String c r => String c (fmt_Sprintf r args)
  | EmptyString => EmptyString
  end.

(** [fmt.Printf(format, args...)] is [fmt.Fprintf(os.Stdout, ...)]: one
    write of the formatted text, whose result it returns. *)
Definition fmt_Printf (format : string) (args : list string)
  : Proc (Z * option error) :=
  os_Stdout_Write (fmt_Sprintf format args).

(** A standard output that takes everything it is given. *)
Definition reliable_stdout (e : Env) : Prop :=
  forall s, stdout_write e s = (len s, None).

(** ** Package [time]

    A [time.Time] is modelled by the civil date and clock reading it
    denotes in UTC (what [Year], [Month], [Day], [Hour], [Minute],
    [Second], [Nanosecond] return): every [Time] this program builds is in
    UTC, [time.Parse] with a layout that has no zone, and the zero value. *)
Module time.

Record Time := mkTime {
  year : Z; month : Z; day : Z;
  hour : Z; minute : Z; second : Z; nsec : Z
}.

(** [time.Time{}]: January 1, year 1, 00:00:00.000000000 UTC. *)
Definition zero : Time := mkTime 1 1 1 0 0 0 0.

(** [year%4 == 0 && (year%100 != 0 || year%400 == 0)]; Go's [%] is the
    remainder of the truncated division, [Z.rem]. *)
Definition isLeap (y : Z) : bool :=
  (Z.rem y 4 =? 0) && (negb (Z.rem y 100 =? 0) || (Z.rem y 400 =? 0)).

(** [daysBefore[m]]: days in a non-leap year before month [m+1]. *)
Definition daysBefore : list Z :=
  [0; 31; 59; 90; 120; 151; 181; 212; 243; 273; 304; 334; 365].

Definition daysIn (m y : Z) : Z :=
  if (m =? 2) && isLeap y then 29
  else nth (Z.to_nat m) daysBefore 0 - nth (Z.to_nat (m - 1)) daysBefore 0.

Inductive ParseError :=
| errBad                       (* the value does not match the layout *)
| errRange (what : string)     (* "month out of range", "day out of range" *)
| errExtra (text : string).    (* extra text after the last element *)

(** [leadingInt]: the decimal number at the front of [s], and the rest. *)
Fixpoint leadingInt (s : string) (x : Z) : Z * string :=
  match s with
  | String c r => if isDigit c then leadingInt r (x * 10 + digitVal c)
                  else (x, s)
  | EmptyString => (x, s)
  end.

(** [atoi]: an optional sign, then digits up to the end of the string. *)
Definition atoi (s : string) : option Z :=
  let signed :=
    match s with
    | String c _ => Ascii.eqb c "-" || Ascii.eqb c "+"
    | EmptyString => false
    end in
  let neg :=
    match s with
    | String c _ => Ascii.eqb c "-"
    | EmptyString => false
    end in
  let digits :=
    match s with
    | String _ r => if signed then r else s
    | EmptyString => s
    end in
  match leadingInt digits 0 with
  | (q, EmptyString) => Some (if neg then - q else q)
  | (_, String _ _) => None
  end.

(** [getnum(s, fixed)]: one or two digits; exactly two when [fixed]. *)
Definition getnum (s : string) (fixed : bool) : option (Z * string) :=
  match s with
  | String c0 r0 =>
      if isDigit c0 then
        match r0 with
        | String c1 r1 =>
            if isDigit c1 then Some (digitVal c0 * 10 + digitVal c1, r1)
            else if fixed then None else Some (digitVal c0, r0)
        | EmptyString => if fixed then None else Some (digitVal c0, r0)
        end
      else None
  | EmptyString => None
  end.

(** [skip(value, prefix)] for a prefix without spaces: the literal bytes
    of the layout must be there. *)
Fixpoint skip (value pre : string) {struct pre} : option string :=
  match pre with
  | EmptyString => Some value
  | String p pre' =>
      match value with
      | String v value' => if Ascii.eqb v p then skip value' pre' else None
      | EmptyString => None
      end
  end.

(** [time.Date] on a date already in range, at midnight UTC. *)
Definition Date (y m d : Z) : Time := mkTime y m d 0 0 0 0.

(** [time.Parse("2006-01-02", value)].  The layout splits into the
    chunks [stdLongYear], "-", [stdZeroMonth], "-", [stdZeroDay]; the
    loop of [parse] runs once for each and once more for the end. *)
Definition Parse_2006_01_02 (value : string) : Time + ParseError :=
  (* stdLongYear: four bytes, all digits *)
  match value with
  | String a (String b (String c (String d value1))) =>
      if negb (isDigit a) then inr errBad else
      match atoi (String a (String b (String c (String d EmptyString)))) with
      | None => inr errBad
      | Some y =>
          (* "-" then stdZeroMonth *)
          match skip value1 "-" with
          | None => inr errBad
          | Some value2 =>
              match getnum value2 true with
              | None => inr errBad
              | Some (m, value3) =>
                  if (m <=? 0) || (12 <? m) then inr (errRange "month") else
                  (* "-" then stdZeroDay *)
                  match skip value3 "-" with
                  | None => inr errBad
                  | Some value4 =>
                      match getnum value4 true with
                      | None => inr errBad
                      | Some (dd, value5) =>
                          (* end of layout *)
                          match value5 with
                          | String _ _ => inr (errExtra value5)
                          | EmptyString =>
                              if (dd <? 1) || (daysIn m y <? dd)
                              then inr (errRange "day")
                              else inl (Date y m dd)
                          end
                      end
                  end
              end
          end
      end
  | _ => inr errBad
  end.

(** [appendInt(b, x, width)] for [0 <= x < 10^width]: [width] digits. *)
Fixpoint appendInt (width : nat) (x : Z) : string :=
  match width with
  | O => EmptyString
  | S w => appendInt w (x / 10) ++ str1 (digitChr (x mod 10))
  end.

(** Drop the trailing zeros of a run of digits. *)
Fixpoint trimZeros (s : string) : string :=
  match s with
  | EmptyString => EmptyString
  | String c r =>
      match trimZeros r with
      | EmptyString => if Ascii.eqb c "0" then EmptyString else str1 c
      | r' => String c r'
      end
  end.

(** [appendNano] for the layout element ".999999999". *)
Definition appendNano (ns : Z) : string :=
  if ns =? 0 then EmptyString else "." ++ trimZeros (appendInt 9 ns).

(** [t.Format(time.RFC3339Nano)] for a time in UTC. *)
Definition formatRFC3339Nano (t : Time) : string :=
  appendInt 4 (year t) ++ "-" ++ appendInt 2 (month t) ++ "-" ++
  appendInt 2 (day t) ++ "T" ++ appendInt 2 (hour t) ++ ":" ++
  appendInt 2 (minute t) ++ ":" ++ appendInt 2 (second t) ++
  appendNano (nsec t) ++ "Z".

(** [t.MarshalJSON()]: the quoted RFC 3339 form, or an error when the
    year does not fit four digits. *)
Definition MarshalJSON (t : Time) : string + error :=
  if (year t <? 0) || (10000 <=? year t)
  then inr (ErrorString "Time.MarshalJSON: year outside of range [0,9999]")
  else inl (str1 DQ ++ formatRFC3339Nano t ++ str1 DQ).

End time.

(** ** Package [unicode/utf8] *)
Module utf8.

Definition isCont (c : ascii) : bool := (128 <=? code c) && (code c <=? 191).

Definition inRange (lo hi : Z) (c : ascii) : bool :=
  (lo <=? code c) && (code c <=? hi).

(** [seqLen s]: the width of the well-formed multi-byte encoding at the
    front of [s], if there is one ([DecodeRune] returns [RuneError] with
    width 1 otherwise).  Overlong forms, surrogates and values above
    U+10FFFF are not well formed. *)
Definition seqLen (s : string) : option nat :=
  match s with
  | String c0 (String c1 r) =>
      let b0 := code c0 in
      if (194 <=? b0) && (b0 <=? 223) then
        if isCont c1 then Some 2%nat else None
      else
        match r with
        | String c2 r' =>
            let second3 :=
              if b0 =? 224 then inRange 160 191 c1
              else if b0 =? 237 then inRange 128 159 c1
              else if (225 <=? b0) && (b0 <=? 239) then isCont c1
              else false in
            if second3 then (if isCont c2 then Some 3%nat else None)
            else
              match r' with
              | String c3 _ =>
                  let second4 :=
                    if b0 =? 240 then inRange 144 191 c1
                    else if b0 =? 244 then inRange 128 143 c1
                    else if (241 <=? b0) && (b0 <=? 243) then isCont c1
                    else false in
                  if second4 && isCont c2 && isCont c3
                  then Some 4%nat else None
              | EmptyString => None
              end
        | EmptyString => None
        end
  | _ => None
  end.

(** U+FFFD, the replacement character, in UTF-8. *)
Definition RuneError : string :=
  String (chr 239) (String (chr 191) (String (chr 189) EmptyString)).

(** [EncodeRune]: the UTF-8 bytes of a code point; surrogates and values
    out of range are written as U+FFFD. *)
Definition EncodeRune (r : Z) : string :=
  if (0 <=? r) && (r <? 128) then str1 (chr r)
  else if (128 <=? r) && (r <? 2048) then
    String (chr (192 + r / 64)) (str1 (chr (128 + r mod 64)))
  else if ((2048 <=? r) && (r <? 55296)) || ((57344 <=? r) && (r <? 65536)) then
    String (chr (224 + r / 4096))
      (String (chr (128 + (r / 64) mod 64)) (str1 (chr (128 + r mod 64))))
  else if (65536 <=? r) && (r <=? 1114111) then
    String (chr (240 + r / 262144))
      (String (chr (128 + (r / 4096) mod 64))
         (String (chr (128 + (r / 64) mod 64)) (str1 (chr (128 + r mod 64)))))
  else RuneError.

End utf8.

(** ** Package [encoding/json]: reading

    [json.Unmarshal] first checks that the whole input is one JSON value
    ([checkValid], a scanner fed one byte at a time), then walks the value
    and stores it into the Go variable.  Here the scanner is a lexer
    followed by a push-down recogniser that also builds the value; the
    store into a [TodoItem] is further down, after that type. *)
Module json.

#[local] Unset Elimination Schemes.
Inductive Value :=
| Null
| Bool (b : bool)
| Number (literal : string)
| Str (s : string)
| Array (items : list Value)
| Object (members : list (string * Value)).
#[local] Set Elimination Schemes.

Inductive Token :=
| TLBrace | TRBrace | TLBracket | TRBracket | TColon | TComma
| TString (s : string)
| TNumber (literal : string)
| TTrue | TFalse | TNull.

Definition isSpace (c : ascii) : bool :=
  Ascii.eqb c " " || Ascii.eqb c TAB || Ascii.eqb c CR || Ascii.eqb c LF.

Definition hexVal (c : ascii) : option Z :=
  let b := code c in
  if (48 <=? b) && (b <=? 57) then Some (b - 48)
  else if (97 <=? b) && (b <=? 102) then Some (b - 97 + 10)
  else if (65 <=? b) && (b <=? 70) then Some (b - 65 + 10)
  else None.

(** [getu4]: the code unit of a [\uXXXX] escape. *)
Definition getu4 (a b c d : ascii) : option Z :=
  match hexVal a, hexVal b, hexVal c, hexVal d with
  | Some x, Some y, Some z, Some w => Some (((x * 16 + y) * 16 + z) * 16 + w)
  | _, _, _, _ => None
  end.

Definition isSurrogate (r : Z) : bool := (55296 <=? r) && (r <? 57344).

(** [utf16.DecodeRune]: a surrogate pair, or U+FFFD. *)
Definition utf16_DecodeRune (r1 r2 : Z) : Z :=
  if (55296 <=? r1) && (r1 <? 56320) && (56320 <=? r2) && (r2 <? 57344)
  then (r1 - 55296) * 1024 + (r2 - 56320) + 65536
  else 65533.

(** [unquote]: the string a literal denotes, from the bytes between its
    quotes.  [pending] counts the continuation bytes of a well-formed
    UTF-8 sequence still to be copied; a byte that does not start one
    becomes U+FFFD. *)
Fixpoint unquote (pending : nat) (s : string) : option string :=
  match s with
  | EmptyString => Some EmptyString
  | String c r =>
      match pending with
      | S p => option_map (String c) (unquote p r)
      | O =>
          if Ascii.eqb c "\" then
            match r with
            | String "u" (String h0 (String h1 (String h2 (String h3 r1)))) =>
                match getu4 h0 h1 h2 h3 with
                | None => None
                | Some rr =>
                    if isSurrogate rr then
                      match r1 with
                      | String "\" (String "u" (String k0 (String k1
                          (String k2 (String k3 r2))))) =>
                          match getu4 k0 k1 k2 k3 with
                          | Some rr1 =>
                              let dec := utf16_DecodeRune rr rr1 in
                              if dec =? 65533
                              then option_map (append utf8.RuneError)
                                              (unquote O r1)
                              else option_map (append (utf8.EncodeRune dec))
                                              (unquote O r2)
                          | None => option_map (append utf8.RuneError)
                                               (unquote O r1)
                          end
                      | _ => option_map (append utf8.RuneError) (unquote O r1)
                      end
                    else option_map (append (utf8.EncodeRune rr)) (unquote O r1)
                end
            | String e r1 =>
                let plain (x : ascii) := option_map (String x) (unquote O r1) in
                if Ascii.eqb e DQ then plain DQ
                else if Ascii.eqb e "\" then plain "\"%char
                else if Ascii.eqb e "/" then plain "/"%char
                else if Ascii.eqb e "b" then plain BS
                else if Ascii.eqb e "f" then plain FF
                else if Ascii.eqb e "n" then plain LF
                else if Ascii.eqb e "r" then plain CR
                else if Ascii.eqb e "t" then plain TAB
                else None
            | EmptyString => None
            end
          else if Ascii.eqb c DQ || (code c <? 32) then None
          else if code c <? 128 then option_map (String c) (unquote O r)
          else
            match utf8.seqLen s with
            | Some n => option_map (String c) (unquote (Nat.pred n) r)
            | None => option_map (append utf8.RuneError) (unquote O r)
            end
      end
  end.

(** *** The lexer: the scanner's states inside one literal *)

Inductive EscState :=
| InString            (* stateInString *)
| InStringEsc         (* stateInStringEsc: after a backslash *)
| InStringEscU (todo : nat).  (* after \u, [todo] hex digits to come *)

Inductive NumState :=
| stateNeg | state0 | state1 | stateDot | stateDot0
| stateE | stateESign | stateE0.

Inductive LexState :=
| Between                                   (* not inside a literal *)
| InStr (body : list ascii) (e : EscState)  (* [body] in reverse *)
| InNum (literal : list ascii) (n : NumState)
| InWord (rest : string) (t : Token).       (* inside true, false, null *)

Definition text_of (rev_bytes : list ascii) : string :=
  string_of_list_ascii (rev rev_bytes).

Definition between (c : ascii) : option (LexState * list Token) :=
  if isSpace c then Some (Between, [])
  else if Ascii.eqb c "{" then Some (Between, [TLBrace])
  else if Ascii.eqb c "}" then Some (Between, [TRBrace])
  else if Ascii.eqb c "[" then Some (Between, [TLBracket])
  else if Ascii.eqb c "]" then Some (Between, [TRBracket])
  else if Ascii.eqb c ":" then Some (Between, [TColon])
  else if Ascii.eqb c "," then Some (Between, [TComma])
  else if Ascii.eqb c DQ then Some (InStr [] InString, [])
  else if Ascii.eqb c "-" then Some (InNum [c] stateNeg, [])
  else if Ascii.eqb c "0" then Some (InNum [c] state0, [])
  else if isDigit c then Some (InNum [c] state1, [])
  else if Ascii.eqb c "t" then Some (InWord "rue" TTrue, [])
  else if Ascii.eqb c "f" then Some (InWord "alse" TFalse, [])
  else if Ascii.eqb c "n" then Some (InWord "ull" TNull, [])
  else None.

(** A number ends at the first byte that cannot continue it; that byte
    is then read as the start of what follows. *)
Definition endNumber (literal : list ascii) (c : ascii)
  : option (LexState * list Token) :=
  match between c with
  | Some (st, toks) => Some (st, TNumber (text_of literal) :: toks)
  | None => None
  end.

Definition isExp (c : ascii) : bool := Ascii.eqb c "e" || Ascii.eqb c "E".

Definition lex_step (st : LexState) (c : ascii)
  : option (LexState * list Token) :=
  match st with
  | Between => between c
  | InStr body InString =>
      if Ascii.eqb c DQ then
        match unquote O (text_of body) with
        | Some s => Some (Between, [TString s])
        | None => None
        end
      else if Ascii.eqb c "\" then Some (InStr (c :: body) InStringEsc, [])
      else if code c <? 32 then None
      else Some (InStr (c :: body) InString, [])
  | InStr body InStringEsc =>
      if Ascii.eqb c "b" || Ascii.eqb c "f" || Ascii.eqb c "n" ||
         Ascii.eqb c "r" || Ascii.eqb c "t" || Ascii.eqb c "\" ||
         Ascii.eqb c "/" || Ascii.eqb c DQ
      then Some (InStr (c :: body) InString, [])
      else if Ascii.eqb c "u" then Some (InStr (c :: body) (InStringEscU 4), [])
      else None
  | InStr body (InStringEscU todo) =>
      match hexVal c with
      | None => None
      | Some _ =>
          match todo with
          | S (S k) => Some (InStr (c :: body) (InStringEscU (S k)), [])
          | _ => Some (InStr (c :: body) InString, [])
          end
      end
  | InNum lit stateNeg =>
      if Ascii.eqb c "0" then Some (InNum (c :: lit) state0, [])
      else if isDigit c then Some (InNum (c :: lit) state1, [])
      else None
  | InNum lit state0 =>
      if Ascii.eqb c "." then Some (InNum (c :: lit) stateDot, [])
      else if isExp c then Some (InNum (c :: lit) stateE, [])
      else endNumber lit c
  | InNum lit state1 =>
      if isDigit c then Some (InNum (c :: lit) state1, [])
      else if Ascii.eqb c "." then Some (InNum (c :: lit) stateDot, [])
      else if isExp c then Some (InNum (c :: lit) stateE, [])
      else endNumber lit c
  | InNum lit stateDot =>
      if isDigit c then Some (InNum (c :: lit) stateDot0, []) else None
  | InNum lit stateDot0 =>
      if isDigit c then Some (InNum (c :: lit) stateDot0, [])
      else if isExp c then Some (InNum (c :: lit) stateE, [])
      else endNumber lit c
  | InNum lit stateE =>
      if Ascii.eqb c "+" || Ascii.eqb c "-"
      then Some (InNum (c :: lit) stateESign, [])
      else if isDigit c then Some (InNum (c :: lit) stateE0, [])
      else None
  | InNum lit stateESign =>
      if isDigit c then Some (InNum (c :: lit) stateE0, []) else None
  | InNum lit stateE0 =>
      if isDigit c then Some (InNum (c :: lit) stateE0, [])
      else endNumber lit c
  | InWord rest t =>
      match rest with
      | String x EmptyString =>
          if Ascii.eqb c x then Some (Between, [t]) else None
      | String x rest' =>
          if Ascii.eqb c x then Some (InWord rest' t, []) else None
      | EmptyString => None
      end
  end.

(** At the end of the input a number may be complete; a string or a word
    is not. *)
Definition lex_eof (st : LexState) : option (list Token) :=
  match st with
  | Between => Some []
  | InNum lit (state0 | state1 | stateDot0 | stateE0) =>
      Some [TNumber (text_of lit)]
  | _ => None
  end.

Fixpoint lex (st : LexState) (s : string) : option (list Token) :=
  match s with
  | EmptyString => lex_eof st
  | String c r =>
      match lex_step st c with
      | None => None
      | Some (st', toks) =>
          match lex st' r with
          | None => None
          | Some more => Some (toks ++ more)%list
          end
      end
  end.

(** *** The recogniser: the scanner's states between literals, and its
    stack of open arrays and objects ([parseState]), each with what has
    been read of it so far. *)

Inductive Frame :=
| FArray (items : list Value)                       (* in reverse *)
| FObject (members : list (string * Value)) (key : option string).
   (* [key = Some k]: parseObjectKey, then parseObjectValue *)

Inductive Step :=
| stateBeginValue
| stateBeginValueOrEmpty    (* after [ *)
| stateBeginStringOrEmpty   (* after { *)
| stateBeginString          (* after , in an object *)
| stateEndValue
| stateEndTop (v : Value).

Definition maxNestingDepth : Z := 10000.

(** A value is complete: it is the whole input, the next item of the
    open array, or the value of the pending key of the open object. *)
Definition deliver (v : Value) (stack : list Frame)
  : option (list Frame * Step) :=
  match stack with
  | [] => Some ([], stateEndTop v)
  | FArray items :: rest => Some (FArray (v :: items) :: rest, stateEndValue)
  | FObject ms (Some k) :: rest =>
      Some (FObject ((k, v) :: ms) None :: rest, stateEndValue)
  | FObject _ None :: _ => None
  end.

Definition push (f : Frame) (stack : list Frame) (next : Step)
  : option (list Frame * Step) :=
  if Z.of_nat (List.length stack) + 1 <=? maxNestingDepth
  then Some (f :: stack, next) else None.

Definition beginValue (t : Token) (stack : list Frame)
  : option (list Frame * Step) :=
  match t with
  | TLBrace => push (FObject [] None) stack stateBeginStringOrEmpty
  | TLBracket => push (FArray []) stack stateBeginValueOrEmpty
  | TString s => deliver (Str s) stack
  | TNumber l => deliver (Number l) stack
  | TTrue => deliver (Bool true) stack
  | TFalse => deliver (Bool false) stack
  | TNull => deliver Null stack
  | _ => None
  end.

Definition beginString (t : Token) (stack : list Frame)
  : option (list Frame * Step) :=
  match t, stack with
  | TString k, FObject ms None :: rest =>
      Some (FObject ms (Some k) :: rest, stateEndValue)
  | _, _ => None
  end.

Definition parse_step (cfg : list Frame * Step) (t : Token)
  : option (list Frame * Step) :=
  let '(stack, st) := cfg in
  match st with
  | stateBeginValue => beginValue t stack
  | stateBeginValueOrEmpty =>
      match t, stack with
      | TRBracket, FArray items :: rest => deliver (Array (rev items)) rest
      | _, _ => beginValue t stack
      end
  | stateBeginStringOrEmpty =>
      match t, stack with
      | TRBrace, FObject ms None :: rest => deliver (Object (rev ms)) rest
      | _, _ => beginString t stack
      end
  | stateBeginString => beginString t stack
  | stateEndValue =>
      match stack, t with
      | FObject ms (Some k) :: rest, TColon => Some (stack, stateBeginValue)
      | FObject ms None :: rest, TComma => Some (stack, stateBeginString)
      | FObject ms None :: rest, TRBrace => deliver (Object (rev ms)) rest
      | FArray items :: rest, TComma => Some (stack, stateBeginValue)
      | FArray items :: rest, TRBracket => deliver (Array (rev items)) rest
      | _, _ => None
      end
  | stateEndTop _ => None
  end.

Fixpoint parse_tokens (cfg : list Frame * Step) (ts : list Token)
  : option Value :=
  match ts with
  | [] => match cfg with
          | ([], stateEndTop v) => Some v
          | _ => None
          end
  | t :: ts' =>
      match parse_step cfg t with
      | Some cfg' => parse_tokens cfg' ts'
      | None => None
      end
  end.

(** [parse data]: the value [data] denotes when it is valid JSON;
    [None] is the scanner's [*SyntaxError]. *)
Definition parse (data : string) : option Value :=
  match lex Between data with
  | Some ts => parse_tokens ([], stateBeginValue) ts
  | None => None
  end.

End json.


(** ** The program's types *)

(** [type TodoItem struct { Todo string `json:"todo"`;
                            Due string `json:"due,omitempty"` }] *)
Record TodoItem := mkTodoItem {
  TodoItem_Todo : string;
  TodoItem_Due : string
}.

(** [type ParsedTodoItem struct { Todo string; Due time.Time }] *)
Record ParsedTodoItem := mkParsedTodoItem {
  Todo : string;
  Due : time.Time
}.

(** ** Package [encoding/json]: storing into a [TodoItem] *)

Inductive UnmarshalError :=
| SyntaxError
| UnmarshalTypeError (value : string) (field : string).

Inductive Field := fieldTodo | fieldDue.

Definition toUpper (c : ascii) : ascii :=
  if (97 <=? code c) && (code c <=? 122) then chr (code c - 32) else c.

Fixpoint equalFold (a b : string) : bool :=
  match a, b with
  | EmptyString, EmptyString => true
  | String x a', String y b' =>
      Ascii.eqb (toUpper x) (toUpper y) && equalFold a' b'
  | _, _ => false
  end.

(** The field a key names: the one whose JSON name it is, or else the one
    whose name it equals when letter case is ignored. *)
Definition fieldOf (key : string) : option Field :=
  if String.eqb key "todo" then Some fieldTodo
  else if String.eqb key "due" then Some fieldDue
  else if equalFold key "todo" then Some fieldTodo
  else if equalFold key "due" then Some fieldDue
  else None.

(** A JSON value met where a Go [string] is to be stored: a string is
    stored, [null] leaves the variable as it is, anything else is an
    [UnmarshalTypeError] and the value is skipped. *)
Definition storeString (where_ : string) (v : json.Value) (old : string)
  : string * option UnmarshalError :=
  match v with
  | json.Str s => (s, None)
  | json.Null => (old, None)
  | json.Bool _ => (old, Some (UnmarshalTypeError "bool" where_))
  | json.Number _ => (old, Some (UnmarshalTypeError "number" where_))
  | json.Array _ => (old, Some (UnmarshalTypeError "array" where_))
  | json.Object _ => (old, Some (UnmarshalTypeError "object" where_))
  end.

(** [saveError]: the first error is the one reported. *)
Definition saveError (saved new : option UnmarshalError)
  : option UnmarshalError :=
  match saved with
  | Some e => Some e
  | None => new
  end.

(** One member of the object: unknown keys are skipped. *)
Definition storeMember (acc : TodoItem * option UnmarshalError)
  (kv : string * json.Value) : TodoItem * option UnmarshalError :=
  let '(item, saved) := acc in
  let '(key, v) := kv in
  match fieldOf key with
  | Some fieldTodo =>
      let '(s, err) := storeString "todo" v (TodoItem_Todo item) in
      (mkTodoItem s (TodoItem_Due item), saveError saved err)
  | Some fieldDue =>
      let '(s, err) := storeString "due" v (TodoItem_Due item) in
      (mkTodoItem (TodoItem_Todo item) s, saveError saved err)
  | None => (item, saved)
  end.

(** The store of a whole value into the struct. *)
Definition storeTodoItem (v : json.Value) (item : TodoItem)
  : TodoItem * option UnmarshalError :=
  match v with
  | json.Object members => fold_left storeMember members (item, None)
  | json.Null => (item, None)
  | json.Bool _ => (item, Some (UnmarshalTypeError "bool" ""))
  | json.Number _ => (item, Some (UnmarshalTypeError "number" ""))
  | json.Str _ => (item, Some (UnmarshalTypeError "string" ""))
  | json.Array _ => (item, Some (UnmarshalTypeError "array" ""))
  end.

(** [err := json.Unmarshal(data, &item)]: the item after the call, and
    the error. *)
Definition json_Unmarshal (data : string) (item : TodoItem)
  : TodoItem * option UnmarshalError :=
  match json.parse data with
  | None => (item, Some SyntaxError)
  | Some v => storeTodoItem v item
  end.

(** ** Package [encoding/json]: writing a [ParsedTodoItem] *)

(** Bytes below 0x80 that are written as they are, with HTML escaping
    on ([htmlSafeSet]). *)
Definition htmlSafe (c : ascii) : bool :=
  (32 <=? code c) && (code c <? 128) &&
  negb (Ascii.eqb c DQ || Ascii.eqb c "\" || Ascii.eqb c "<" ||
        Ascii.eqb c ">" || Ascii.eqb c "&").

Definition hex (d : Z) : ascii :=
  if d <? 10 then chr (48 + d) else chr (97 + d - 10).

(** The escape of a byte below 0x80 that is not written as it is
    (the [\b] and [\f] forms are those of Go 1.22 and later). *)
Definition escapeByte (c : ascii) : string :=
  if Ascii.eqb c "\" || Ascii.eqb c DQ then String "\" (str1 c)
  else if Ascii.eqb c BS then "\b"
  else if Ascii.eqb c FF then "\f"
  else if Ascii.eqb c LF then "\n"
  else if Ascii.eqb c CR then "\r"
  else if Ascii.eqb c TAB then "\t"
  else "\u00" ++ String (hex (code c / 16)) (str1 (hex (code c mod 16))).

(** The body of the JSON string for a Go string ([appendString] with
    [escapeHTML]).  [pending] counts the continuation bytes of a
    well-formed UTF-8 sequence still to be copied. *)
Fixpoint encodeString (pending : nat) (s : string) : string :=
  match s with
  | EmptyString => EmptyString
  | String c r =>
      match pending with
      | S p => String c (encodeString p r)
      | O =>
          if code c <? 128 then
            (if htmlSafe c then str1 c else escapeByte c) ++ encodeString O r
          else
            match r with
            | String c1 (String c2 r2) =>
                if (code c =? 226) && (code c1 =? 128) &&
                   ((code c2 =? 168) || (code c2 =? 169))
                then "\u202" ++ String (hex (code c2 - 160)) (encodeString O r2)
                else
                  match utf8.seqLen s with
                  | Some n => String c (encodeString (Nat.pred n) r)
                  | None => "\ufffd" ++ encodeString O r
                  end
            | _ =>
                match utf8.seqLen s with
                | Some n => String c (encodeString (Nat.pred n) r)
                | None => "\ufffd" ++ encodeString O r
                end
            end
      end
  end.

Definition quote (s : string) : string :=
  str1 DQ ++ encodeString O s ++ str1 DQ.

(** [json.MarshalIndent(item, prefix, indent)] for a [ParsedTodoItem]:
    the object [{"Todo":...,"Due":...}] with each member on a line of its
    own, after [prefix] and one [indent]; the closing brace after
    [prefix].  The only error is that of [Time.MarshalJSON]. *)
Definition json_MarshalIndent (item : ParsedTodoItem) (pre indent : string)
  : string + error :=
  match time.MarshalJSON (Due item) with
  | inr e =>
      inr (ErrorString ("json: error calling MarshalJSON for type time.Time: "
                        ++ error_Error e))
  | inl due =>
      inl ("{" ++ str1 LF ++ pre ++ indent ++
           quote "Todo" ++ ": " ++ quote (Todo item) ++ "," ++
           str1 LF ++ pre ++ indent ++
           quote "Due" ++ ": " ++ due ++
           str1 LF ++ pre ++ "}")
  end.

(** ** The program *)

(** [flag.String(name, value, usage)] and, in [main], [flag.Parse()],
    when [flag.Parse()] returns: the flag is what the command line gives
    for it, or else [value].  ([flag.Parse()] itself ends the process,
    with the usage text, on a flag that is not defined, on [-add] without
    a value and on [-h]; that is before anything of this program runs
    and is not embedded.) *)
Definition flag_String (value : string) (given : option string) : string :=
  match given with
  | Some v => v
  | None => value
  end.

(** [var todoItem = flag.String("add", "Something worth doing",
    "Item to add to todo list. {"task": task to do, "due": date due
    (YYYY-MM-DD)}")].  [todoItem add] is [*todoItem] once [flag.Parse()]
    has run, [add] being what the command line has for [-add]. *)
Definition todoItem (add : option string) : string :=
  flag_String "Something worth doing" add.

Definition parseDuedate (dueDate : string) : Proc time.Time :=
  if String.eqb dueDate "" then ret time.zero
  else
    match time.Parse_2006_01_02 dueDate with
    | inr parseErr => log_Fatal "Badly formed due date."
    | inl parsedDueDate => ret parsedDueDate
    end.

Definition ParseInput (input : string) : Proc ParsedTodoItem :=
  let '(todoItem, err) := json_Unmarshal input (mkTodoItem "" "") in
  match err with
  | Some _ => log_Fatal "Invalid JSON passed to ./todo-app"
  | None =>
      parsedDueDate <- parseDuedate (TodoItem_Due todoItem) ;;
      let parsedItem :=
        {| Todo := TodoItem_Todo todoItem; Due := parsedDueDate |} in
      ret parsedItem
  end.

Definition PrettyPrintItem (item : ParsedTodoItem) : Proc (Z * option error) :=
  match json_MarshalIndent item (str1 TAB) (str1 TAB) with
  | inr err => ret (0, Some err)
  | inl formattedItem =>
      fmt_Printf ("You entered:" ++ str1 LF ++ str1 LF ++ str1 TAB ++ "%s")
                 [formattedItem]
  end.

(** [main] from where [flag.Parse()] has returned, given what the
    command line has for [-add]. *)
Definition main (add : option string) : Proc unit :=
  item <- ParseInput (todoItem add) ;;
  _ <- PrettyPrintItem item ;;
  ret tt.

(** The run of the program from empty streams, once [flag.Parse()] has
    returned. *)
Definition run (e : Env) (add : option string) : Outcome unit :=
  main add e no_output.

(** Examples are written with an apostrophe for the double quote. *)
Fixpoint txt (s : string) : string :=
  match s with
  | EmptyString => EmptyString
  | String c r => String (if Ascii.eqb c "'" then DQ else c) (txt r)
  end.

(** An environment for the examples: a clock stopped at some instant, a
    standard output that takes everything. *)
Definition env0 : Env :=
  {| log_header := "2020/02/02 20:20:02 ";
     stdout_write := fun s => (len s, None);
     sigpipe_ignored := false |}.

(** The same at a later time. *)
Definition env_later : Env :=
  {| log_header := "2031/12/31 23:59:59 ";
     stdout_write := fun s => (len s, None);
     sigpipe_ignored := false |}.

(** A standard output that has been closed. *)
Definition env_closed : Env :=
  {| log_header := "2021/03/04 05:06:07 ";
     stdout_write :=
       fun s => (0, Some (ErrorString "write /dev/stdout: file already closed"));
     sigpipe_ignored := false |}.

(** A standard output that is a pipe whose reader has gone. *)
Definition env_broken_pipe : Env :=
  {| log_header := "2021/03/04 05:06:08 ";
     stdout_write := fun s => (0, Some EPIPE);
     sigpipe_ignored := false |}.

(** The same in a process that was started with SIGPIPE ignored. *)
Definition env_broken_pipe_ignored : Env :=
  {| log_header := "2021/03/04 05:06:09 ";
     stdout_write := fun s => (0, Some EPIPE);
     sigpipe_ignored := true |}.

(** ** The specification's vocabulary

    Definitions that follow the words of the specification, to compare
    the program with. *)
Module Spec.

(** A leap year of the Gregorian calendar. *)
Definition leap_year (y : Z) : bool :=
  ((y mod 4 =? 0) && negb (y mod 100 =? 0)) || (y mod 400 =? 0).

Definition days_in_month (y m : Z) : Z :=
  if (m =? 4) || (m =? 6) || (m =? 9) || (m =? 11) then 30
  else if m =? 2 then (if leap_year y then 29 else 28)
  else 31.

(** [YYYY-MM-DD]: four-digit year, two-digit month, two-digit day,
    separated by hyphens, nothing else, and a date of the calendar. *)
Definition calendar_date (s : string) : option (Z * Z * Z) :=
  match s with
  | String y3 (String y2 (String y1 (String y0 (String h1
      (String m1 (String m0 (String h2
        (String d1 (String d0 EmptyString))))))))) =>
      if forallb isDigit [y3; y2; y1; y0; m1; m0; d1; d0] &&
         Ascii.eqb h1 "-" && Ascii.eqb h2 "-"
      then
        let y := 1000 * digitVal y3 + 100 * digitVal y2 +
                 10 * digitVal y1 + digitVal y0 in
        let m := 10 * digitVal m1 + digitVal m0 in
        let d := 10 * digitVal d1 + digitVal d0 in
        if (1 <=? m) && (m <=? 12) && (1 <=? d) && (d <=? days_in_month y m)
        then Some (y, m, d) else None
      else None
  | _ => None
  end.

(** The date at midnight, without a time of day. *)
Definition date_only (ymd : Z * Z * Z) : time.Time :=
  let '(y, m, d) := ymd in time.mkTime y m d 0 0 0 0.

(** ParseDueDate: empty input gives the absent-date sentinel; a
    [YYYY-MM-DD] calendar date gives that date; any deviation fails. *)
Definition ParseDueDate (dueText : string) : option time.Time :=
  match dueText with
  | EmptyString => Some time.zero
  | _ => option_map date_only (calendar_date dueText)
  end.

(** What a fatal error leaves behind: the streams as they were, and one
    more line on standard error. *)
Definition fatal {A} (msg : string) (e : Env) (w : Streams) : Outcome A :=
  Exits 1 {| stdout := stdout w;
             stderr := stderr w ++ log_header e ++ msg ++ str1 LF |}.

(** A string of the shape [YYYY-MM-DD], with the numbers it shows. *)
Definition is_ymd (s : string) (y m d : Z) : Prop :=
  exists y3 y2 y1 y0 m1 m0 d1 d0,
    s = String y3 (String y2 (String y1 (String y0 (String "-"
          (String m1 (String m0 (String "-"
            (String d1 (String d0 EmptyString))))))))) /\
    forallb isDigit [y3; y2; y1; y0; m1; m0; d1; d0] = true /\
    y = 1000 * digitVal y3 + 100 * digitVal y2 +
        10 * digitVal y1 + digitVal y0 /\
    m = 10 * digitVal m1 + digitVal m0 /\
    d = 10 * digitVal d1 + digitVal d0.

(** A calendar date and no time of day. *)
Definition is_calendar_date (t : time.Time) : Prop :=
  1 <= time.month t <= 12 /\
  1 <= time.day t <= days_in_month (time.year t) (time.month t) /\
  time.hour t = 0 /\ time.minute t = 0 /\ time.second t = 0 /\
  time.nsec t = 0.

Definition is_string (v : json.Value) : bool :=
  match v with json.Str _ => true | _ => false end.

(** "Wrong types for the [todo] or [due] keys": the object has one of
    the two keys with a value that is not a string. *)
Definition wrong_types (v : json.Value) : bool :=
  match v with
  | json.Object members =>
      existsb (fun kv => (String.eqb (fst kv) "todo" ||
                          String.eqb (fst kv) "due") &&
                         negb (is_string (snd kv))) members
  | _ => false
  end.

(** The value of a key is a number, a boolean, an array or an object. *)
Definition not_text (v : json.Value) : bool :=
  match v with
  | json.Str _ | json.Null => false
  | _ => true
  end.

(** A member whose key is [todo] or [due], in any letter case, and
    whose value is neither a string nor [null]. *)
Definition bad_member (kv : string * json.Value) : bool :=
  (equalFold (fst kv) "todo" || equalFold (fst kv) "due") &&
  not_text (snd kv).

(** The shapes the program rejects: a value that is neither an object
    nor [null]; an object with such a member. *)
Definition rejected (v : json.Value) : bool :=
  match v with
  | json.Object members => existsb bad_member members
  | json.Null => false
  | _ => true
  end.

(** Deserialize as the specification words it: input that is not valid
    JSON, or whose [todo] or [due] key has a wrong type, is fatal. *)
Definition fatal_on_wrong_types (input : string) (e : Env) (w : Streams)
  : Prop :=
  (json.parse input = None \/
   exists v, json.parse input = Some v /\ wrong_types v = true) ->
  ParseInput input e w = fatal "Invalid JSON passed to ./todo-app" e w.

(** Well-formed input: deserialisation succeeds, and the due text is
    empty or a calendar date. *)
Definition well_formed (input : string) : Prop :=
  exists raw, json_Unmarshal input (mkTodoItem "" "") = (raw, None) /\
              ParseDueDate (TodoItem_Due raw) <> None.

(** The success output: the introductory line, an empty line, and the
    two fields, each on a line of its own.  [task] and [due] are what
    stands between the quotes. *)
Definition before_task : string :=
  "You entered:" ++ str1 LF ++ str1 LF ++
  str1 TAB ++ "{" ++ str1 LF ++
  str1 TAB ++ str1 TAB ++ txt "'Todo': '".

(** What [fmt.Printf] puts before the item. *)
Definition before_task_line : string :=
  "You entered:" ++ str1 LF ++ str1 LF ++ str1 TAB.

Definition before_due : string :=
  txt "'," ++ str1 LF ++
  str1 TAB ++ str1 TAB ++ txt "'Due': '".

Definition after_due : string :=
  txt "'" ++ str1 LF ++ str1 TAB ++ "}".

Definition rendering (task due : string) : string :=
  before_task ++ task ++ before_due ++ due ++ after_due.

(** How a due date shows in the output. *)
Definition due_text (D : string) : string :=
  match D with
  | EmptyString => "0001-01-01T00:00:00Z"
  | _ => D ++ "T00:00:00Z"
  end.

(** A task of bytes that JSON output writes as they are. *)
Fixpoint plain (s : string) : bool :=
  match s with
  | EmptyString => true
  | String c r => htmlSafe c && plain r
  end.

(** The first testable property as the specification words it: the
    output contains the task verbatim and the date. *)
Definition output_shows_task_verbatim (e : Env) (input T D : string)
  : Prop :=
  json.parse input =
    Some (json.Object [("todo", json.Str T); ("due", json.Str D)]) ->
  (D = "" \/ calendar_date D <> None) ->
  reliable_stdout e ->
  exit_status (run e (Some input)) = 0 /\
  contains T (stdout (streams (run e (Some input)))) = true /\
  contains (due_text D) (stdout (streams (run e (Some input)))) = true.

(** The write of [text] to standard output raises SIGPIPE and the signal
    ends the process. *)
Definition raises_SIGPIPE (e : Env) (text : string) : bool :=
  match snd (stdout_write e text) with
  | Some EPIPE => negb (sigpipe_ignored e)
  | _ => false
  end.

(** The streams after the write of [text] to standard output. *)
Definition after_write (e : Env) (text : string) (w : Streams) : Streams :=
  {| stdout := stdout w ++ take (Z.to_nat (fst (stdout_write e text))) text;
     stderr := stderr w |}.



(** The input text for a task and a due text that need no escapes. *)
Definition object_text (T D : string) : string :=
  txt "{'todo': '" ++ T ++ txt "', 'due': '" ++ D ++ txt "'}".

(** The line of the output for an item without a due date. *)
Definition zero_due_line : string := txt "'Due': '0001-01-01T00:00:00Z'".

(** The input text for a task alone. *)
Definition task_text (T : string) : string :=
  txt "{'todo': '" ++ T ++ txt "'}".

End Spec.

(** ** Vocabulary of the further properties *)
Module More.

(** A member that gives a field its text: the key is the field's name,
    in any letter case, and the value is a string. *)
Definition gives (name : string) (kv : string * json.Value) : bool :=
  equalFold (fst kv) name && Spec.is_string (snd kv).

(** Every byte of [s] passes [p]. *)
Fixpoint all_bytes (p : ascii -> bool) (s : string) : bool :=
  match s with
  | EmptyString => true
  | String c r => p c && all_bytes p r
  end.



(** A byte of ASCII. *)
Definition is_ascii (c : ascii) : bool := code c <? 128.


(** What the JSON output writes for one byte of ASCII. *)
Definition piece (c : ascii) : string :=
  if htmlSafe c then str1 c else escapeByte c.

(** The lexer run over a piece of text: where it stands afterwards, and
    the tokens it has given. *)
Fixpoint lex_run (st : json.LexState) (s : string)
  : option (json.LexState * list json.Token) :=
  match s with
  | EmptyString => Some (st, [])
  | String c r =>
      match json.lex_step st c with
      | None => None
      | Some (st', toks) =>
          match lex_run st' r with
          | None => None
          | Some (st'', more) => Some (st'', (toks ++ more)%list)
          end
      end
  end.

End More.

(** * Proofs *)

(** ** [time.Parse] and the calendar *)

Lemma isDigit_range c : isDigit c = true -> 0 <= digitVal c <= 9.
Proof. unfold isDigit, digitVal. lia. Qed.

Lemma isDigit_not_sign c :
  isDigit c = true -> Ascii.eqb c "-" = false /\ Ascii.eqb c "+" = false.
Proof.
  destruct c as [[] [] [] [] [] [] [] []]; vm_compute; intuition congruence.
Qed.

Lemma isLeap_leap_year y : 0 <= y -> time.isLeap y = Spec.leap_year y.
Proof.
  intros Hy. unfold time.isLeap, Spec.leap_year.
  rewrite !Z.rem_mod_nonneg by lia.
  destruct (y mod 4 =? 0) eqn:E4, (y mod 100 =? 0) eqn:E100,
           (y mod 400 =? 0) eqn:E400; try reflexivity; exfalso.
  all: rewrite ?Z.eqb_eq, ?Z.eqb_neq in *.
  all: pose proof (Z.div_mod y 400 ltac:(lia)); pose proof (Z.div_mod y 4 ltac:(lia));
       pose proof (Z.mod_pos_bound y 4 ltac:(lia)).
  all: lia.
Qed.

Lemma daysIn_days_in_month y m :
  0 <= y -> 1 <= m <= 12 -> time.daysIn m y = Spec.days_in_month y m.
Proof.
  intros Hy Hm. unfold time.daysIn, Spec.days_in_month.
  rewrite isLeap_leap_year by assumption.
  assert (m = 1 \/ m = 2 \/ m = 3 \/ m = 4 \/ m = 5 \/ m = 6 \/ m = 7 \/
          m = 8 \/ m = 9 \/ m = 10 \/ m = 11 \/ m = 12) as H by lia.
  repeat (destruct H as [-> | H]); try subst m;
    cbn; try destruct (Spec.leap_year y); reflexivity.
Qed.

#[local] Arguments isDigit : simpl never.
#[local] Arguments digitVal : simpl never.
#[local] Arguments Ascii.eqb : simpl never.
#[local] Arguments Z.mul : simpl never.
#[local] Arguments Z.add : simpl never.

Lemma atoi4 a b c d :
  isDigit a = true ->
  time.atoi (String a (String b (String c (String d EmptyString)))) =
  if isDigit b && isDigit c && isDigit d
  then Some (1000 * digitVal a + 100 * digitVal b + 10 * digitVal c + digitVal d)
  else None.
Proof.
  intros Ha. unfold time.atoi.
  destruct (isDigit_not_sign a Ha) as [-> ->]. cbn [orb].
  cbn [time.leadingInt]. rewrite Ha.
  destruct (isDigit b), (isDigit c), (isDigit d); cbn [andb]; try reflexivity.
  f_equal. lia.
Qed.

Lemma getnum_fixed s :
  time.getnum s true =
  match s with
  | String a (String b r) =>
      if isDigit a && isDigit b then Some (10 * digitVal a + digitVal b, r)
      else None
  | _ => None
  end.
Proof.
  destruct s as [|a [|b r]]; cbn [time.getnum]; try reflexivity.
  - destruct (isDigit a); reflexivity.
  - destruct (isDigit a), (isDigit b); cbn [andb]; try reflexivity.
    do 2 f_equal. lia.
Qed.

Lemma skip_hyphen s :
  time.skip s "-" =
  match s with
  | String h r => if Ascii.eqb h "-" then Some r else None
  | EmptyString => None
  end.
Proof. destruct s; reflexivity. Qed.

#[local] Arguments time.daysIn : simpl never.

Lemma is_ymd_year_nonneg s y m d : Spec.is_ymd s y m d -> 0 <= y <= 9999.
Proof.
  intros (y3 & y2 & y1 & y0 & m1 & m0 & d1 & d0 & _ & Hd & -> & _).
  cbn [forallb] in Hd. repeat (apply andb_prop in Hd as [?%isDigit_range Hd]).
  lia.
Qed.

Lemma calendar_date_Some s y m d :
  Spec.calendar_date s = Some (y, m, d) <->
  Spec.is_ymd s y m d /\ 1 <= m <= 12 /\ 1 <= d <= Spec.days_in_month y m.
Proof.
  split.
  - unfold Spec.calendar_date. intros H.
    repeat match type of H with
    | match ?s with EmptyString => _ | String _ _ => _ end = _ =>
        destruct s; try discriminate H
    end.
    match type of H with
    | (if ?b then _ else _) = _ => destruct b eqn:Hb; [|discriminate]
    end.
    match type of H with
    | (if ?b then _ else _) = _ => destruct b eqn:Hr; [|discriminate]
    end.
    injection H as <- <- <-.
    apply andb_prop in Hb as [Hb Hh2]. apply andb_prop in Hb as [Hb Hh1].
    apply Ascii.eqb_eq in Hh1, Hh2. subst.
    split; [|lia]. unfold Spec.is_ymd. do 8 eexists. repeat split. assumption.
  - intros ((y3 & y2 & y1 & y0 & m1 & m0 & d1 & d0 & -> & Hd & -> & -> & ->) & Hm & Hdd).
    unfold Spec.calendar_date. rewrite Hd, !Ascii.eqb_refl. cbn [andb].
    match goal with
    | |- (if ?b then _ else _) = _ => replace b with true by lia
    end.
    reflexivity.
Qed.

Lemma Parse_inl s t :
  time.Parse_2006_01_02 s = inl t <->
  exists y m d, t = time.mkTime y m d 0 0 0 0 /\ Spec.is_ymd s y m d /\
                1 <= m <= 12 /\ 1 <= d <= time.daysIn m y.
Proof.
  split.
  - unfold time.Parse_2006_01_02. intros H.
    destruct s as [|y3 [|y2 [|y1 [|y0 s]]]]; try discriminate H.
    destruct (isDigit y3) eqn:E3; cbn [negb] in H; [|discriminate].
    rewrite atoi4 in H by assumption.
    destruct (isDigit y2) eqn:E2; [|discriminate].
    destruct (isDigit y1) eqn:E1; [|discriminate].
    destruct (isDigit y0) eqn:E0; [|discriminate].
    cbn [andb] in H. cbv beta iota in H.
    rewrite skip_hyphen in H.
    destruct s as [|h1 s]; [discriminate|].
    destruct (Ascii.eqb h1 "-") eqn:Eh1; [|discriminate].
    rewrite getnum_fixed in H.
    destruct s as [|m1 [|m0 s]]; try discriminate H.
    destruct (isDigit m1) eqn:Em1; [|discriminate].
    destruct (isDigit m0) eqn:Em0; [|discriminate].
    cbn [andb] in H. cbv beta iota in H.
    match type of H with
    | (if ?b then _ else _) = _ => destruct b eqn:Hm; [discriminate|]
    end.
    rewrite skip_hyphen in H.
    destruct s as [|h2 s]; [discriminate|].
    destruct (Ascii.eqb h2 "-") eqn:Eh2; [|discriminate].
    rewrite getnum_fixed in H.
    destruct s as [|d1 [|d0 s]]; try discriminate H.
    destruct (isDigit d1) eqn:Ed1; [|discriminate].
    destruct (isDigit d0) eqn:Ed0; [|discriminate].
    cbn [andb] in H. cbv beta iota in H.
    destruct s; [|discriminate].
    match type of H with
    | (if ?b then _ else _) = _ => destruct b eqn:Hd; [discriminate|]
    end.
    injection H as <-.
    apply Ascii.eqb_eq in Eh1, Eh2. subst.
    do 3 eexists. split; [reflexivity|]. split; [|lia].
    unfold Spec.is_ymd. do 8 eexists. repeat split.
    cbn [forallb]. rewrite E3, E2, E1, E0, Em1, Em0, Ed1, Ed0. reflexivity.
  - intros (y & m & d & -> & (y3 & y2 & y1 & y0 & m1 & m0 & d1 & d0
                              & -> & Hd & -> & -> & ->) & Hm & Hdd).
    cbn [forallb] in Hd. rewrite !andb_true_iff in Hd.
    destruct Hd as (D3 & D2 & D1 & D0 & M1 & M0 & Dd1 & Dd0 & _).
    unfold time.Parse_2006_01_02.
    rewrite atoi4 by assumption. rewrite D3, D2, D1, D0.
    cbn [negb andb]. cbv beta iota.
    rewrite skip_hyphen, Ascii.eqb_refl, getnum_fixed, M1, M0.
    cbn [andb]. cbv beta iota.
    match goal with
    | |- (if ?b then _ else _) = _ => replace b with false by lia
    end.
    rewrite skip_hyphen, Ascii.eqb_refl, getnum_fixed, Dd1, Dd0.
    cbn [andb]. cbv beta iota.
    match goal with
    | |- (if ?b then _ else _) = _ => replace b with false by lia
    end.
    reflexivity.
Qed.

Lemma Parse_calendar_date s :
  match Spec.calendar_date s with
  | Some ymd => time.Parse_2006_01_02 s = inl (Spec.date_only ymd)
  | None => exists err, time.Parse_2006_01_02 s = inr err
  end.
Proof.
  destruct (Spec.calendar_date s) as [[[y m] d]|] eqn:Hs.
  - apply calendar_date_Some in Hs as (Hy & Hm & Hd).
    apply Parse_inl. exists y, m, d. split; [reflexivity|].
    pose proof (is_ymd_year_nonneg _ _ _ _ Hy).
    rewrite daysIn_days_in_month by lia. auto.
  - destruct (time.Parse_2006_01_02 s) as [t|err] eqn:Hp; [|eauto].
    apply Parse_inl in Hp as (y & m & d & -> & Hy & Hm & Hd).
    pose proof (is_ymd_year_nonneg _ _ _ _ Hy).
    rewrite daysIn_days_in_month in Hd by lia.
    assert (Spec.calendar_date s = Some (y, m, d)) as Hc
      by (apply calendar_date_Some; auto).
    congruence.
Qed.

(** ** [parseDuedate] *)

Lemma String_eqb_nonempty c r : String.eqb (String c r) "" = false.
Proof. reflexivity. Qed.

Lemma parseDuedate_spec (dueDate : string) (e : Env) (w : Streams) :
  parseDuedate dueDate e w =
  match Spec.ParseDueDate dueDate with
  | Some t => Returns t w
  | None => Spec.fatal "Badly formed due date." e w
  end.
Proof.
  unfold parseDuedate, Spec.ParseDueDate.
  destruct dueDate as [|c r]; [reflexivity|].
  rewrite String_eqb_nonempty.
  pose proof (Parse_calendar_date (String c r)) as H.
  destruct (Spec.calendar_date (String c r)) as [ymd|]; cbn [option_map].
  - rewrite H. reflexivity.
  - destruct H as [err ->]. reflexivity.
Qed.

Example ParseDueDate_empty : Spec.ParseDueDate "" = Some time.zero.
Proof. reflexivity. Qed.

Example ParseDueDate_2020_02_02 :
  Spec.ParseDueDate "2020-02-02" = Some (time.mkTime 2020 2 2 0 0 0 0).
Proof. reflexivity. Qed.

Example ParseDueDate_deviations :
  map Spec.ParseDueDate
      ["02-02-2020"; "2020/02/02"; "2020-13-01"; "2020-02-30";
       "2020-2-2"; "20200-02-02"; "2020-02-02T00:00:00Z"; " "; "2019-02-29"] =
  [None; None; None; None; None; None; None; None; None].
Proof. reflexivity. Qed.

Lemma ParseDueDate_Some dueText t :
  Spec.ParseDueDate dueText = Some t ->
  t = time.zero \/ Spec.is_calendar_date t.
Proof.
  unfold Spec.ParseDueDate. destruct dueText as [|c r].
  - intros [= <-]. now left.
  - destruct (Spec.calendar_date (String c r)) as [[[y m] d]|] eqn:Hc;
      [|discriminate].
    intros [= <-]. right.
    apply calendar_date_Some in Hc as (_ & Hm & Hd).
    unfold Spec.is_calendar_date.
    cbn [Spec.date_only time.year time.month time.day time.hour
         time.minute time.second time.nsec].
    repeat split; solve [reflexivity | lia].
Qed.

(** ** [ParseInput] *)

Lemma ParseInput_unfold input e w :
  ParseInput input e w =
  match json_Unmarshal input (mkTodoItem "" "") with
  | (_, Some _) => Spec.fatal "Invalid JSON passed to ./todo-app" e w
  | (raw, None) =>
      match Spec.ParseDueDate (TodoItem_Due raw) with
      | Some d => Returns {| Todo := TodoItem_Todo raw; Due := d |} w
      | None => Spec.fatal "Badly formed due date." e w
      end
  end.
Proof.
  unfold ParseInput.
  destruct (json_Unmarshal input (mkTodoItem "" "")) as [raw [err|]];
    [reflexivity|].
  unfold bind. rewrite parseDuedate_spec.
  destruct (Spec.ParseDueDate (TodoItem_Due raw)); reflexivity.
Qed.

(** ** [json.Unmarshal] into a [TodoItem] *)

Lemma String_eqb_equalFold a b : String.eqb a b = true -> equalFold a b = true.
Proof.
  intros H%String.eqb_eq. subst b.
  induction a as [|c a IH]; cbn [equalFold]; [reflexivity|].
  rewrite Ascii.eqb_refl, IH. reflexivity.
Qed.

Lemma fieldOf_None key :
  fieldOf key = None <->
  equalFold key "todo" || equalFold key "due" = false.
Proof.
  unfold fieldOf.
  destruct (String.eqb key "todo") eqn:E1.
  { rewrite (String_eqb_equalFold _ _ E1). cbn. split; discriminate. }
  destruct (String.eqb key "due") eqn:E2.
  { rewrite (String_eqb_equalFold _ _ E2), orb_true_r. split; discriminate. }
  destruct (equalFold key "todo"); [cbn; split; discriminate|].
  destruct (equalFold key "due"); cbn; split; congruence.
Qed.

Lemma storeString_error where_ v old :
  snd (storeString where_ v old) = None <-> Spec.not_text v = false.
Proof. destruct v; cbn; split; congruence. Qed.

Lemma storeMember_sticky ms item err :
  snd (fold_left storeMember ms (item, Some err)) = Some err.
Proof.
  revert item. induction ms as [|[k v] ms IH]; intros item; [reflexivity|].
  cbn [fold_left storeMember].
  destruct (fieldOf k) as [[]|]; try apply IH.
  - destruct (storeString "todo" v (TodoItem_Todo item)); apply IH.
  - destruct (storeString "due" v (TodoItem_Due item)); apply IH.
Qed.

Lemma storeMember_error ms item :
  snd (fold_left storeMember ms (item, None)) = None <->
  existsb Spec.bad_member ms = false.
Proof.
  revert item. induction ms as [|[k v] ms IH]; intros item.
  { cbn. tauto. }
  cbn [fold_left storeMember existsb]. unfold Spec.bad_member at 1. cbn [fst snd].
  destruct (fieldOf k) as [f|] eqn:Hf.
  - assert (equalFold k "todo" || equalFold k "due" = true) as ->.
    { destruct (equalFold k "todo" || equalFold k "due") eqn:E; [reflexivity|].
      apply fieldOf_None in E. congruence. }
    cbn [andb].
    destruct f.
    + pose proof (storeString_error "todo" v (TodoItem_Todo item)) as Hs.
      destruct (storeString "todo" v (TodoItem_Todo item)) as [s [err|]];
        cbn [saveError snd] in *.
      * rewrite storeMember_sticky.
        destruct (Spec.not_text v); [cbn; split; discriminate|].
        destruct Hs as [_ Hs]. specialize (Hs eq_refl). discriminate.
      * destruct Hs as [Hs _]. rewrite (Hs eq_refl). cbn [orb]. apply IH.
    + pose proof (storeString_error "due" v (TodoItem_Due item)) as Hs.
      destruct (storeString "due" v (TodoItem_Due item)) as [s [err|]];
        cbn [saveError snd] in *.
      * rewrite storeMember_sticky.
        destruct (Spec.not_text v); [cbn; split; discriminate|].
        destruct Hs as [_ Hs]. specialize (Hs eq_refl). discriminate.
      * destruct Hs as [Hs _]. rewrite (Hs eq_refl). cbn [orb]. apply IH.
  - apply fieldOf_None in Hf. rewrite Hf. cbn [andb orb]. apply IH.
Qed.

Lemma storeTodoItem_error v item :
  snd (storeTodoItem v item) = None <-> Spec.rejected v = false.
Proof.
  destruct v; cbn [storeTodoItem Spec.rejected snd]; try (split; discriminate);
    try tauto.
  apply storeMember_error.
Qed.

Lemma json_Unmarshal_error input item :
  snd (json_Unmarshal input item) = None <->
  exists v, json.parse input = Some v /\ Spec.rejected v = false.
Proof.
  unfold json_Unmarshal. destruct (json.parse input) as [v|].
  - rewrite storeTodoItem_error. split; [eauto|].
    intros (v' & [= <-] & H). exact H.
  - cbn. split; [discriminate|]. intros (v & H & _). discriminate.
Qed.

Lemma ParseInput_invalid input e w :
  (json.parse input = None \/
   exists v, json.parse input = Some v /\ Spec.rejected v = true) ->
  ParseInput input e w = Spec.fatal "Invalid JSON passed to ./todo-app" e w.
Proof.
  intros H. rewrite ParseInput_unfold.
  destruct (json_Unmarshal input (mkTodoItem "" "")) as [raw [err|]] eqn:Hu;
    [reflexivity|].
  exfalso.
  assert (snd (json_Unmarshal input (mkTodoItem "" "")) = None) as Hs
    by (rewrite Hu; reflexivity).
  apply json_Unmarshal_error in Hs as (v & Hv & Hr).
  destruct H as [H | (v' & H & Hr')]; congruence.
Qed.

(** ** Strings *)

Lemma append_inv_head (a b c : string) : a ++ b = a ++ c -> b = c.
Proof.
  induction a as [|x a IH]; cbn; [trivial|]. intros [= H]. now apply IH.
Qed.

Lemma append_nil_r s : s ++ "" = s.
Proof. induction s as [|c s IH]; cbn; [reflexivity|now rewrite IH]. Qed.

Lemma append_assoc (a b c : string) : (a ++ b) ++ c = a ++ (b ++ c).
Proof. induction a as [|x a IH]; cbn; [reflexivity|now rewrite IH]. Qed.

Lemma take_length s : take (String.length s) s = s.
Proof. induction s as [|c s IH]; cbn; [reflexivity|now rewrite IH]. Qed.

Lemma prefix_append a b : String.prefix a (a ++ b) = true.
Proof.
  induction a as [|c a IH]; cbn; [now destruct b|].
  destruct (ascii_dec c c); [exact IH|congruence].
Qed.

Lemma contains_prefix sub s : String.prefix sub s = true -> contains sub s = true.
Proof. intros H. destruct s; cbn [contains]; rewrite H; reflexivity. Qed.

Lemma contains_append pre sub post : contains sub (pre ++ sub ++ post) = true.
Proof.
  induction pre as [|c pre IH].
  - cbn [append]. apply contains_prefix, prefix_append.
  - cbn [append contains]. rewrite IH. apply orb_true_r.
Qed.

Lemma prefix_split a s :
  String.prefix a s = true -> exists post, s = a ++ post.
Proof.
  revert s. induction a as [|c a IH]; intros s H.
  - exists s. reflexivity.
  - destruct s as [|x s]; [discriminate H|].
    cbn [String.prefix] in H. destruct (ascii_dec c x) as [->|]; [|discriminate H].
    destruct (IH s H) as [post ->]. exists post. reflexivity.
Qed.

(** [contains] says what it should: an occurrence somewhere. *)
Lemma contains_occurrence sub s :
  contains sub s = true <-> exists pre post, s = pre ++ sub ++ post.
Proof.
  split.
  - induction s as [|x s IH]; cbn [contains]; intros H.
    + rewrite orb_false_r in H. destruct (prefix_split _ _ H) as [post ->].
      exists "", post. reflexivity.
    + apply orb_prop in H as [H | H].
      * destruct (prefix_split _ _ H) as [post ->]. exists "", post. reflexivity.
      * destruct (IH H) as (pre & post & ->).
        exists (String x pre), post. reflexivity.
  - intros (pre & post & ->). apply contains_append.
Qed.

(** ** [time]: the RFC 3339 form of a date *)

Lemma digitChr_digitVal c : isDigit c = true -> digitChr (digitVal c) = c.
Proof.
  intros _. unfold digitChr, digitVal, chr, code.
  replace (48 + (Z.of_N (N_of_ascii c) - 48)) with (Z.of_N (N_of_ascii c)) by lia.
  rewrite N2Z.id. apply ascii_N_embedding.
Qed.

Example format_zero :
  time.formatRFC3339Nano time.zero = "0001-01-01T00:00:00Z".
Proof. reflexivity. Qed.

Lemma appendInt2 a b :
  isDigit a = true -> isDigit b = true ->
  time.appendInt 2 (10 * digitVal a + digitVal b) = String a (String b "").
Proof.
  intros Ha Hb.
  pose proof (isDigit_range _ Ha). pose proof (isDigit_range _ Hb).
  cbn [time.appendInt].
  replace ((10 * digitVal a + digitVal b) mod 10) with (digitVal b)
    by (Z.div_mod_to_equations; lia).
  replace (((10 * digitVal a + digitVal b) / 10) mod 10) with (digitVal a)
    by (Z.div_mod_to_equations; lia).
  rewrite !digitChr_digitVal by assumption. reflexivity.
Qed.

Lemma appendInt4 a b c d :
  isDigit a = true -> isDigit b = true -> isDigit c = true -> isDigit d = true ->
  time.appendInt 4 (1000 * digitVal a + 100 * digitVal b +
                    10 * digitVal c + digitVal d) =
  String a (String b (String c (String d ""))).
Proof.
  intros Ha Hb Hc Hd.
  pose proof (isDigit_range _ Ha). pose proof (isDigit_range _ Hb).
  pose proof (isDigit_range _ Hc). pose proof (isDigit_range _ Hd).
  set (n := 1000 * digitVal a + 100 * digitVal b + 10 * digitVal c + digitVal d).
  cbn [time.appendInt].
  replace (n mod 10) with (digitVal d) by (subst n; Z.div_mod_to_equations; lia).
  replace ((n / 10) mod 10) with (digitVal c) by (subst n; Z.div_mod_to_equations; lia).
  replace ((n / 10 / 10) mod 10) with (digitVal b) by (subst n; Z.div_mod_to_equations; lia).
  replace ((n / 10 / 10 / 10) mod 10) with (digitVal a) by (subst n; Z.div_mod_to_equations; lia).
  rewrite !digitChr_digitVal by assumption. reflexivity.
Qed.

Lemma format_ymd D y m d :
  Spec.is_ymd D y m d ->
  time.formatRFC3339Nano (time.mkTime y m d 0 0 0 0) = D ++ "T00:00:00Z".
Proof.
  intros (y3 & y2 & y1 & y0 & m1 & m0 & d1 & d0 & -> & Hd & -> & -> & ->).
  cbn [forallb] in Hd. rewrite !andb_true_iff in Hd.
  destruct Hd as (D3 & D2 & D1 & D0 & M1 & M0 & Dd1 & Dd0 & _).
  unfold time.formatRFC3339Nano.
  cbn [time.year time.month time.day time.hour time.minute time.second time.nsec].
  rewrite appendInt4, !appendInt2 by assumption.
  reflexivity.
Qed.

Lemma format_due D t :
  Spec.ParseDueDate D = Some t ->
  time.formatRFC3339Nano t = Spec.due_text D /\ 0 <= time.year t < 10000.
Proof.
  unfold Spec.ParseDueDate, Spec.due_text. destruct D as [|c r].
  - intros [= <-]. split; [reflexivity|cbn; lia].
  - destruct (Spec.calendar_date (String c r)) as [[[y m] d]|] eqn:Hc;
      [|discriminate].
    intros [= <-]. apply calendar_date_Some in Hc as (Hy & _).
    cbn [Spec.date_only]. split; [now apply format_ymd|].
    pose proof (is_ymd_year_nonneg _ _ _ _ Hy). cbn [time.year]. lia.
Qed.

Lemma ParseInput_invalid_only input e w :
  ParseInput input e w = Spec.fatal "Invalid JSON passed to ./todo-app" e w ->
  json.parse input = None \/
  exists v, json.parse input = Some v /\ Spec.rejected v = true.
Proof.
  rewrite ParseInput_unfold.
  destruct (json_Unmarshal input (mkTodoItem "" "")) as [raw [err|]] eqn:Hu.
  - intros _. destruct (json.parse input) as [v|] eqn:Hp; [|now left].
    right. exists v. split; [reflexivity|].
    destruct (Spec.rejected v) eqn:Hr; [reflexivity|].
    assert (snd (json_Unmarshal input (mkTodoItem "" "")) = None) as Hs
      by (apply json_Unmarshal_error; eauto).
    rewrite Hu in Hs. discriminate Hs.
  - destruct (Spec.ParseDueDate (TodoItem_Due raw)); [discriminate|].
    unfold Spec.fatal. intros [= H].
    apply append_inv_head, append_inv_head in H. discriminate H.
Qed.

(** ** [PrettyPrintItem] *)

Lemma encodeString_plain s : Spec.plain s = true -> encodeString O s = s.
Proof.
  induction s as [|c s IH]; [reflexivity|].
  cbn [Spec.plain encodeString]. intros [Hc Hs]%andb_prop.
  rewrite Hc. assert ((code c <? 128) = true) as ->.
  { unfold htmlSafe in Hc. lia. }
  cbn [append str1]. now rewrite IH.
Qed.

Lemma PrettyPrintItem_formatted item e w :
  0 <= time.year (Due item) < 10000 ->
  PrettyPrintItem item e w =
  os_Stdout_Write (Spec.rendering (encodeString O (Todo item))
                     (time.formatRFC3339Nano (Due item))) e w.
Proof.
  intros Hy. unfold PrettyPrintItem, json_MarshalIndent, time.MarshalJSON.
  replace ((time.year (Due item) <? 0) || (10000 <=? time.year (Due item)))
    with false by lia.
  unfold fmt_Printf. f_equal.
  unfold Spec.rendering, quote. cbn.
  rewrite !append_assoc, append_nil_r. reflexivity.
Qed.

Lemma os_Stdout_Write_reliable text e w :
  reliable_stdout e ->
  os_Stdout_Write text e w =
  Returns (len text, None) {| stdout := stdout w ++ text; stderr := stderr w |}.
Proof.
  intros Hr. unfold os_Stdout_Write. rewrite Hr. unfold len.
  rewrite Nat2Z.id, take_length. reflexivity.
Qed.

Lemma os_Stdout_Write_cases text e w :
  os_Stdout_Write text e w =
  if Spec.raises_SIGPIPE e text
  then Exits (killed_by SIGPIPE) (Spec.after_write e text w)
  else Returns (stdout_write e text) (Spec.after_write e text w).
Proof.
  unfold os_Stdout_Write, Spec.raises_SIGPIPE, Spec.after_write.
  destruct (stdout_write e text) as [n [[|msg]|]]; cbn [fst snd];
    try reflexivity.
  destruct (sigpipe_ignored e); reflexivity.
Qed.

Lemma PrettyPrintItem_cases item e w :
  PrettyPrintItem item e w =
  match json_MarshalIndent item (str1 TAB) (str1 TAB) with
  | inr failure => Returns (0, Some failure) w
  | inl formattedItem =>
      os_Stdout_Write (Spec.before_task_line ++ formattedItem) e w
  end.
Proof.
  unfold PrettyPrintItem.
  destruct (json_MarshalIndent item (str1 TAB) (str1 TAB)) as [text|failure];
    [|reflexivity].
  unfold fmt_Printf. f_equal. cbn. now rewrite append_nil_r.
Qed.

(** [PrettyPrintItem] returns, or the process ends by SIGPIPE; standard
    error is as it was. *)
Lemma PrettyPrintItem_ends item e w :
  (exists r w', PrettyPrintItem item e w = Returns r w' /\
                stderr w' = stderr w) \/
  (exists w', PrettyPrintItem item e w = Exits (killed_by SIGPIPE) w' /\
              stderr w' = stderr w).
Proof.
  rewrite PrettyPrintItem_cases.
  destruct (json_MarshalIndent item (str1 TAB) (str1 TAB)) as [text|failure].
  - rewrite os_Stdout_Write_cases.
    destruct (Spec.raises_SIGPIPE e (Spec.before_task_line ++ text));
      [right|left]; repeat eexists.
  - left. repeat eexists.
Qed.

(** ** [main] *)

Lemma run_unfold e add :
  run e add =
  match ParseInput (todoItem add) e no_output with
  | Returns item w =>
      match PrettyPrintItem item e w with
      | Returns _ w' => Returns tt w'
      | Exits st w' => Exits st w'
      end
  | Exits st w => Exits st w
  end.
Proof.
  unfold run, main, bind.
  destruct (ParseInput (todoItem add) e no_output); [|reflexivity].
  destruct (PrettyPrintItem a e w); reflexivity.
Qed.

Lemma ParseDueDate_valid D :
  D = "" \/ Spec.calendar_date D <> None ->
  exists d, Spec.ParseDueDate D = Some d.
Proof.
  unfold Spec.ParseDueDate. intros [-> | H]; [eauto|].
  destruct D as [|c r]; [eauto|].
  destruct (Spec.calendar_date (String c r)); [cbn; eauto|congruence].
Qed.

Lemma run_success e input raw :
  json_Unmarshal input (mkTodoItem "" "") = (raw, None) ->
  Spec.ParseDueDate (TodoItem_Due raw) <> None ->
  reliable_stdout e ->
  run e (Some input) =
  Returns tt {| stdout := Spec.rendering (encodeString O (TodoItem_Todo raw))
                            (Spec.due_text (TodoItem_Due raw));
                stderr := "" |}.
Proof.
  intros Hu Hd Hr. rewrite run_unfold. cbn [todoItem flag_String].
  rewrite ParseInput_unfold, Hu.
  destruct (Spec.ParseDueDate (TodoItem_Due raw)) as [d|] eqn:Hp; [|congruence].
  apply format_due in Hp as [Hf Hy].
  rewrite PrettyPrintItem_formatted by exact Hy.
  rewrite os_Stdout_Write_reliable by exact Hr.
  cbn [Todo Due no_output stdout stderr append]. rewrite Hf. reflexivity.
Qed.

Lemma contains_task task due :
  contains task (Spec.rendering task due) = true.
Proof. unfold Spec.rendering. apply contains_append. Qed.

Lemma contains_due task due :
  contains due (Spec.rendering task due) = true.
Proof.
  unfold Spec.rendering.
  rewrite <- (append_assoc task), <- (append_assoc Spec.before_task).
  apply contains_append.
Qed.

Lemma contains_zero_due_line task :
  contains Spec.zero_due_line (Spec.rendering task "0001-01-01T00:00:00Z") = true.
Proof.
  unfold Spec.rendering.
  replace (Spec.before_due ++ "0001-01-01T00:00:00Z" ++ Spec.after_due)
    with ((txt "'," ++ str1 LF ++ str1 TAB ++ str1 TAB) ++
          Spec.zero_due_line ++ (str1 LF ++ str1 TAB ++ "}"))
    by reflexivity.
  rewrite <- (append_assoc task), <- (append_assoc Spec.before_task).
  apply contains_append.
Qed.

(** ** The input text of an object with plain strings *)

Lemma plain_byte c :
  htmlSafe c = true ->
  Ascii.eqb c DQ = false /\ Ascii.eqb c "\" = false /\
  (code c <? 32) = false /\ (code c <? 128) = true.
Proof.
  unfold htmlSafe. intros H.
  apply andb_prop in H as [H1 H2]. apply negb_true_iff in H2.
  repeat (apply orb_false_elim in H2 as [H2 ?]).
  repeat split; try assumption; lia.
Qed.

Lemma unquote_plain s : Spec.plain s = true -> json.unquote O s = Some s.
Proof.
  induction s as [|c s IH]; [reflexivity|].
  cbn [Spec.plain]. intros [Hc Hs]%andb_prop.
  destruct (plain_byte c Hc) as (Hq & Hb & H32 & H128).
  cbn [json.unquote]. rewrite Hb, Hq, H32, H128. cbn [orb].
  rewrite (IH Hs). reflexivity.
Qed.

Lemma text_of_rev_append s acc :
  json.text_of (rev (list_ascii_of_string s) ++ acc)%list =
  json.text_of acc ++ s.
Proof.
  unfold json.text_of. rewrite rev_app_distr, rev_involutive.
  induction (rev acc) as [|x l IH]; cbn.
  - apply string_of_list_ascii_of_string.
  - now rewrite IH.
Qed.

(** Inside a string literal, plain bytes are taken one by one up to the
    closing quote. *)
Lemma lex_plain_body body acc rest :
  Spec.plain body = true ->
  json.lex (json.InStr acc json.InString) (body ++ rest) =
  json.lex (json.InStr (rev (list_ascii_of_string body) ++ acc)%list
                       json.InString) rest.
Proof.
  revert acc. induction body as [|c body IH]; intros acc; [reflexivity|].
  cbn [Spec.plain]. intros [Hc Hs]%andb_prop.
  destruct (plain_byte c Hc) as (Hq & Hb & H32 & _).
  cbn [append json.lex json.lex_step]. rewrite Hq, Hb, H32.
  rewrite (IH (c :: acc) Hs).
  cbn [list_ascii_of_string rev]. rewrite <- app_assoc. cbn [app].
  destruct (json.lex _ rest); reflexivity.
Qed.

Lemma lex_plain_literal body rest :
  Spec.plain body = true ->
  json.lex json.Between (String DQ (body ++ String DQ rest)) =
  match json.lex json.Between rest with
  | Some more => Some (json.TString body :: more)
  | None => None
  end.
Proof.
  intros Hp.
  change (json.lex json.Between (String DQ (body ++ String DQ rest)))
    with (match json.lex (json.InStr [] json.InString)
                         (body ++ String DQ rest) with
          | Some more => Some ([] ++ more)%list
          | None => None
          end).
  rewrite (lex_plain_body body [] (String DQ rest) Hp).
  cbn [json.lex json.lex_step]. rewrite Ascii.eqb_refl.
  rewrite text_of_rev_append. cbn [json.text_of rev string_of_list_ascii append].
  rewrite (unquote_plain body Hp).
  destruct (json.lex json.Between rest); reflexivity.
Qed.

Lemma lex_punct c t r :
  json.lex_step json.Between c = Some (json.Between, [t]) ->
  json.lex json.Between (String c r) =
  match json.lex json.Between r with
  | Some more => Some (t :: more)
  | None => None
  end.
Proof. intros H. cbn [json.lex]. rewrite H. reflexivity. Qed.

Lemma lex_space c r :
  json.lex_step json.Between c = Some (json.Between, []) ->
  json.lex json.Between (String c r) = json.lex json.Between r.
Proof.
  intros H. cbn [json.lex]. rewrite H.
  destruct (json.lex json.Between r); reflexivity.
Qed.

(** The text [{"todo": "T", "due": "D"}], for plain [T] and [D], is the
    object with those two members. *)
Lemma parse_todo_due T D :
  Spec.plain T = true -> Spec.plain D = true ->
  json.parse (Spec.object_text T D) =
  Some (json.Object [("todo", json.Str T); ("due", json.Str D)]).
Proof.
  intros HT HD. unfold json.parse.
  replace (Spec.object_text T D) with
    (String "{" (String DQ ("todo" ++ String DQ (String ":" (String " "
      (String DQ (T ++ String DQ (String "," (String " " (String DQ
      ("due" ++ String DQ (String ":" (String " " (String DQ (D ++
      String DQ (String "}" ""))))))))))))))))
    by reflexivity.
  rewrite (lex_punct "{" json.TLBrace) by reflexivity.
  rewrite (lex_plain_literal "todo") by reflexivity.
  rewrite (lex_punct ":" json.TColon) by reflexivity.
  rewrite (lex_space " ") by reflexivity.
  rewrite (lex_plain_literal T) by assumption.
  rewrite (lex_punct "," json.TComma) by reflexivity.
  rewrite (lex_space " ") by reflexivity.
  rewrite (lex_plain_literal "due") by reflexivity.
  rewrite (lex_punct ":" json.TColon) by reflexivity.
  rewrite (lex_space " ") by reflexivity.
  rewrite (lex_plain_literal D) by assumption.
  rewrite (lex_punct "}" json.TRBrace) by reflexivity.
  reflexivity.
Qed.

Lemma parse_todo T :
  Spec.plain T = true ->
  json.parse (Spec.task_text T) = Some (json.Object [("todo", json.Str T)]).
Proof.
  intros HT. unfold json.parse.
  replace (Spec.task_text T) with
    (String "{" (String DQ ("todo" ++ String DQ (String ":" (String " "
      (String DQ (T ++ String DQ (String "}" ""))))))))
    by reflexivity.
  rewrite (lex_punct "{" json.TLBrace) by reflexivity.
  rewrite (lex_plain_literal "todo") by reflexivity.
  rewrite (lex_punct ":" json.TColon) by reflexivity.
  rewrite (lex_space " ") by reflexivity.
  rewrite (lex_plain_literal T) by assumption.
  rewrite (lex_punct "}" json.TRBrace) by reflexivity.
  reflexivity.
Qed.

(** A calendar date is made of digits and hyphens, bytes that need no
    escape. *)
Lemma isDigit_htmlSafe c : isDigit c = true -> htmlSafe c = true.
Proof.
  destruct c as [[] [] [] [] [] [] [] []]; vm_compute; congruence.
Qed.

Lemma calendar_date_plain D : Spec.calendar_date D <> None -> Spec.plain D = true.
Proof.
  destruct (Spec.calendar_date D) as [[[y m] d]|] eqn:Hc; [|congruence].
  intros _. apply calendar_date_Some in Hc as (Hy & _).
  destruct Hy as (y3 & y2 & y1 & y0 & m1 & m0 & d1 & d0 & -> & Hd & _).
  cbn [forallb] in Hd. rewrite !andb_true_iff in Hd.
  destruct Hd as (D3 & D2 & D1 & D0 & M1 & M0 & Dd1 & Dd0 & _).
  cbn [Spec.plain].
  rewrite (isDigit_htmlSafe _ D3), (isDigit_htmlSafe _ D2),
          (isDigit_htmlSafe _ D1), (isDigit_htmlSafe _ D0),
          (isDigit_htmlSafe _ M1), (isDigit_htmlSafe _ M0),
          (isDigit_htmlSafe _ Dd1), (isDigit_htmlSafe _ Dd0).
  reflexivity.
Qed.


Lemma run_object e input T D :
  json.parse input =
    Some (json.Object [("todo", json.Str T); ("due", json.Str D)]) ->
  (D = "" \/ Spec.calendar_date D <> None) ->
  reliable_stdout e ->
  run e (Some input) =
  Returns tt {| stdout := Spec.rendering (encodeString O T) (Spec.due_text D);
                stderr := "" |}.
Proof.
  intros Hp Hd Hr.
  assert (json_Unmarshal input (mkTodoItem "" "") = (mkTodoItem T D, None)) as Hu
    by (unfold json_Unmarshal; rewrite Hp; reflexivity).
  destruct (ParseDueDate_valid D Hd) as [d Hd'].
  apply (run_success e input (mkTodoItem T D) Hu); [|exact Hr].
  cbn [TodoItem_Due]. congruence.
Qed.

(** From the text on the command line to the text on standard output:
    a plain task and a due date come back as they were written, the date
    with its time of day. *)
Corollary plain_object_is_echoed e T D :
  Spec.plain T = true ->
  (D = "" \/ Spec.calendar_date D <> None) ->
  reliable_stdout e ->
  run e (Some (Spec.object_text T D)) =
  Returns tt {| stdout := Spec.rendering T (Spec.due_text D); stderr := "" |}.
Proof.
  intros HT HD Hr.
  assert (Spec.plain D = true) as HpD.
  { destruct HD as [-> | HD]; [reflexivity|now apply calendar_date_plain]. }
  rewrite (run_object e _ T D (parse_todo_due T D HT HpD) HD Hr).
  now rewrite (encodeString_plain T HT).
Qed.

(** The task alone, and the task with an empty due text: the same run. *)
Corollary plain_task_without_due e T :
  Spec.plain T = true ->
  run e (Some (Spec.task_text T)) = run e (Some (Spec.object_text T "")).
Proof.
  intros HT. rewrite !run_unfold. cbn [todoItem flag_String].
  rewrite !ParseInput_unfold. unfold json_Unmarshal.
  rewrite (parse_todo T HT), (parse_todo_due T "" HT eq_refl).
  reflexivity.
Qed.

(** ** The scenarios of the specification, run *)

Example run_practice_go :
  run env0 (Some (txt "{'todo': 'Practice Go', 'due': '2020-02-02'}")) =
  Returns tt {| stdout := Spec.rendering "Practice Go" "2020-02-02T00:00:00Z";
                stderr := "" |}.
Proof. reflexivity. Qed.

Example run_write_spec :
  run env0 (Some (txt "{'todo': 'Write spec'}")) =
  Returns tt {| stdout := Spec.rendering "Write spec" "0001-01-01T00:00:00Z";
                stderr := "" |}.
Proof. reflexivity. Qed.

Example run_not_json :
  run env0 (Some "not json") =
  Exits 1 {| stdout := "";
             stderr := "2020/02/02 20:20:02 Invalid JSON passed to ./todo-app"
                       ++ str1 LF |}.
Proof. reflexivity. Qed.

Example run_february_30 :
  run env0 (Some (txt "{'todo': 'X', 'due': '2020-02-30'}")) =
  Exits 1 {| stdout := "";
             stderr := "2020/02/02 20:20:02 Badly formed due date."
                       ++ str1 LF |}.
Proof. reflexivity. Qed.

Example run_closed_stdout :
  run env_closed (Some (txt "{'todo': 'Write spec'}")) =
  Returns tt {| stdout := ""; stderr := "" |}.
Proof. reflexivity. Qed.

Example run_broken_pipe :
  run env_broken_pipe (Some (txt "{'todo': 'Write spec'}")) =
  Exits 141 {| stdout := ""; stderr := "" |}.
Proof. reflexivity. Qed.

Example run_broken_pipe_ignored :
  run env_broken_pipe_ignored (Some (txt "{'todo': 'Write spec'}")) =
  Returns tt {| stdout := ""; stderr := "" |}.
Proof. reflexivity. Qed.

(** The time of day is in the environment and does show: on standard
    error, in the header of the diagnostic. *)
Example diagnostic_carries_the_time :
  stderr (streams (run env0 (Some "not json"))) <>
  stderr (streams (run env_later (Some "not json"))).
Proof. discriminate. Qed.

Example run_escaped_task :
  run env0 (Some (txt "{'todo': 'a<b'}")) =
  Returns tt {| stdout := Spec.rendering "a\u003cb" "0001-01-01T00:00:00Z";
                stderr := "" |}.
Proof. reflexivity. Qed.

(** * The claims *)

(** C1 (as amended).  Input that is not valid JSON, or valid JSON that is
    neither an object nor [null], or an object in which a key that is
    [todo] or [due] (in any letter case) has a number, a boolean, an
    array or an object as its value, ends the process: status 1, the line
    "Invalid JSON passed to ./todo-app" on standard error, nothing more on
    standard output, no item.  No other input ends it so: a [null] where
    the object or one of the two strings is expected is let through. *)
Theorem C1_invalid_input_is_fatal (input : string) (e : Env) (w : Streams) :
  (json.parse input = None \/
   exists v, json.parse input = Some v /\ Spec.rejected v = true) <->
  ParseInput input e w = Spec.fatal "Invalid JSON passed to ./todo-app" e w.
Proof.
  split; [apply ParseInput_invalid|apply ParseInput_invalid_only].
Qed.

Lemma C1_witness :
  ParseInput (txt "{'todo': 5, 'due': '2020-02-02'}") env0 no_output =
  Exits 1 {| stdout := "";
             stderr := "2020/02/02 20:20:02 Invalid JSON passed to ./todo-app"
                       ++ str1 LF |}.
Proof.
  apply (proj1 (C1_invalid_input_is_fatal
                  (txt "{'todo': 5, 'due': '2020-02-02'}") env0 no_output)).
  right. eexists. split; reflexivity.
Defined.

(** C1 as stated fails: with [null] for the [todo] key the value is not a
    string, and the item is built all the same, with an empty task. *)
Lemma C1_counterexample :
  ~ Spec.fatal_on_wrong_types (txt "{'todo': null}") env0 no_output.
Proof.
  unfold Spec.fatal_on_wrong_types. intros H.
  assert (ParseInput (txt "{'todo': null}") env0 no_output =
          Returns {| Todo := ""; Due := time.zero |} no_output) as Hrun
    by reflexivity.
  rewrite Hrun in H.
  assert (Returns {| Todo := ""; Due := time.zero |} no_output =
          Spec.fatal "Invalid JSON passed to ./todo-app" env0 no_output) as Hbad.
  { apply H. right. eexists. split; reflexivity. }
  discriminate Hbad.
Qed.

(** C2.  [parseDuedate] computes the specification's ParseDueDate: the
    empty string gives the zero time and no error; a non-empty string
    that is a [YYYY-MM-DD] calendar date gives that date; every other
    string ends the process with status 1 and the line "Badly formed due
    date." on standard error. *)
Theorem C2_parseDuedate_refines_ParseDueDate (dueDate : string)
  (e : Env) (w : Streams) :
  parseDuedate dueDate e w =
  match Spec.ParseDueDate dueDate with
  | Some t => Returns t w
  | None => Spec.fatal "Badly formed due date." e w
  end.
Proof.
  unfold parseDuedate, Spec.ParseDueDate.
  destruct dueDate as [|c r]; [reflexivity|].
  rewrite String_eqb_nonempty.
  (* a non-empty string goes to [time.Parse] *)
  pose proof (Parse_calendar_date (String c r)) as H.
  destruct (Spec.calendar_date (String c r)) as [ymd|]; cbn [option_map].
  - rewrite H. reflexivity.
  - destruct H as [err ->]. reflexivity.
Qed.

(** C3.  Once the input is deserialised into a raw item, [ParseInput]
    does what [parseDuedate] does on the raw item's due text: it stops
    where that stops, and otherwise returns the item made of the raw
    task, as it is, and the parsed date.  Nothing looks at the task. *)
Theorem C3_ParseInput_builds_the_item (input : string) (raw : TodoItem)
  (e : Env) (w : Streams) :
  json_Unmarshal input (mkTodoItem "" "") = (raw, None) ->
  ParseInput input e w =
  match parseDuedate (TodoItem_Due raw) e w with
  | Returns d w' => Returns {| Todo := TodoItem_Todo raw; Due := d |} w'
  | Exits st w' => Exits st w'
  end.
Proof.
  intros Hu. unfold ParseInput. rewrite Hu. unfold bind.
  destruct (parseDuedate (TodoItem_Due raw) e w); reflexivity.
Qed.

Lemma C3_witness :
  ParseInput (txt "{'todo': '', 'due': '2020-02-02'}") env0 no_output =
  Returns {| Todo := ""; Due := time.mkTime 2020 2 2 0 0 0 0 |} no_output.
Proof.
  apply (C3_ParseInput_builds_the_item
           (txt "{'todo': '', 'due': '2020-02-02'}")
           (mkTodoItem "" "2020-02-02") env0 no_output).
  reflexivity.
Defined.

(** C4.  [ParseInput] either returns an item or ends the process.  When
    it returns one, the input was well formed, nothing was written, and
    the item's due date is the zero time or a calendar date at midnight.
    When the input is not well formed the process ends with status 1 and
    no item. *)
Theorem C4_item_only_from_well_formed_input (input : string)
  (e : Env) (w : Streams) :
  match ParseInput input e w with
  | Returns item w' =>
      w' = w /\ Spec.well_formed input /\
      (Due item = time.zero \/ Spec.is_calendar_date (Due item))
  | Exits st w' =>
      st = 1 /\ ~ Spec.well_formed input /\ stdout w' = stdout w
  end.
Proof.
  rewrite ParseInput_unfold. unfold Spec.well_formed.
  destruct (json_Unmarshal input (mkTodoItem "" "")) as [raw [err|]] eqn:Hu.
  - cbn. repeat split. intros (raw' & [=] & _).
  - destruct (Spec.ParseDueDate (TodoItem_Due raw)) as [d|] eqn:Hd.
    + repeat split.
      * exists raw. split; [reflexivity|congruence].
      * cbn [Due]. now apply ParseDueDate_Some with (TodoItem_Due raw).
    + cbn. repeat split. intros (raw' & [= <-] & Hne). congruence.
Qed.

(** C5.  An object with the task alone and an object with the task and an
    empty due text deserialise to the same raw item, whose due text is
    empty; both give the item with the zero time, and the same run. *)
Theorem C5_due_omitted_or_empty (T s1 s2 : string) (e : Env) (w : Streams) :
  json.parse s1 = Some (json.Object [("todo", json.Str T)]) ->
  json.parse s2 =
    Some (json.Object [("todo", json.Str T); ("due", json.Str "")]) ->
  json_Unmarshal s1 (mkTodoItem "" "") = (mkTodoItem T "", None) /\
  json_Unmarshal s2 (mkTodoItem "" "") = (mkTodoItem T "", None) /\
  ParseInput s1 e w = Returns {| Todo := T; Due := time.zero |} w /\
  ParseInput s2 e w = Returns {| Todo := T; Due := time.zero |} w /\
  run e (Some s1) = run e (Some s2).
Proof.
  intros H1 H2.
  assert (json_Unmarshal s1 (mkTodoItem "" "") = (mkTodoItem T "", None)) as U1
    by (unfold json_Unmarshal; rewrite H1; reflexivity).
  assert (json_Unmarshal s2 (mkTodoItem "" "") = (mkTodoItem T "", None)) as U2
    by (unfold json_Unmarshal; rewrite H2; reflexivity).
  repeat split; try assumption.
  - rewrite ParseInput_unfold, U1. reflexivity.
  - rewrite ParseInput_unfold, U2. reflexivity.
  - rewrite !run_unfold. cbn [todoItem flag_String].
    rewrite !ParseInput_unfold, U1, U2. reflexivity.
Qed.

Lemma C5_witness :
  json_Unmarshal (txt "{'todo': 'Write spec'}") (mkTodoItem "" "") =
    (mkTodoItem "Write spec" "", None) /\
  json_Unmarshal (txt "{'todo': 'Write spec', 'due': ''}") (mkTodoItem "" "") =
    (mkTodoItem "Write spec" "", None) /\
  ParseInput (txt "{'todo': 'Write spec'}") env0 no_output =
    Returns {| Todo := "Write spec"; Due := time.zero |} no_output /\
  ParseInput (txt "{'todo': 'Write spec', 'due': ''}") env0 no_output =
    Returns {| Todo := "Write spec"; Due := time.zero |} no_output /\
  run env0 (Some (txt "{'todo': 'Write spec'}")) =
  run env0 (Some (txt "{'todo': 'Write spec', 'due': ''}")).
Proof.
  apply (C5_due_omitted_or_empty "Write spec"
           (txt "{'todo': 'Write spec'}")
           (txt "{'todo': 'Write spec', 'due': ''}") env0 no_output);
    reflexivity.
Defined.

(** C6 (as amended).  For input that is the object with a task [T] and a
    due text [D], empty or a calendar date, the run succeeds and, on a
    standard output that takes everything, prints the rendering of the
    item: the task as a JSON string, which is [T] itself when [T] has only
    bytes that JSON output leaves alone, and otherwise [T] with its
    escapes; and the date as [D] followed by T00:00:00Z, or the zero time
    when [D] is empty. *)
Theorem C6_valid_input_is_rendered (e : Env) (input T D : string) :
  json.parse input =
    Some (json.Object [("todo", json.Str T); ("due", json.Str D)]) ->
  (D = "" \/ Spec.calendar_date D <> None) ->
  reliable_stdout e ->
  run e (Some input) =
    Returns tt {| stdout := Spec.rendering (encodeString O T) (Spec.due_text D);
                  stderr := "" |} /\
  contains (encodeString O T) (stdout (streams (run e (Some input)))) = true /\
  contains (Spec.due_text D) (stdout (streams (run e (Some input)))) = true /\
  (Spec.plain T = true ->
   contains T (stdout (streams (run e (Some input)))) = true).
Proof.
  intros Hp Hd Hr.
  rewrite (run_object e input T D Hp Hd Hr). cbn [streams stdout].
  repeat split.
  - apply contains_task.
  - apply contains_due.
  - intros Hplain. rewrite <- (encodeString_plain T Hplain) at 1.
    apply contains_task.
Qed.

Lemma C6_witness :
  run env0 (Some (txt "{'todo': 'Practice Go', 'due': '2020-02-02'}")) =
    Returns tt {| stdout := Spec.rendering "Practice Go" "2020-02-02T00:00:00Z";
                  stderr := "" |} /\
  contains "Practice Go"
    (stdout (streams (run env0
       (Some (txt "{'todo': 'Practice Go', 'due': '2020-02-02'}"))))) = true /\
  contains "2020-02-02T00:00:00Z"
    (stdout (streams (run env0
       (Some (txt "{'todo': 'Practice Go', 'due': '2020-02-02'}"))))) = true /\
  (Spec.plain "Practice Go" = true ->
   contains "Practice Go"
     (stdout (streams (run env0
        (Some (txt "{'todo': 'Practice Go', 'due': '2020-02-02'}"))))) = true).
Proof.
  apply (C6_valid_input_is_rendered env0
           (txt "{'todo': 'Practice Go', 'due': '2020-02-02'}")
           "Practice Go" "2020-02-02").
  - reflexivity.
  - right. vm_compute. discriminate.
  - intros s. reflexivity.
Defined.

(** C6 as stated fails: the task [a<b] is printed as [a\u003cb], and the
    output does not contain [a<b]. *)
Lemma C6_counterexample :
  ~ Spec.output_shows_task_verbatim env0
      (txt "{'todo': 'a<b', 'due': ''}") "a<b" "".
Proof.
  unfold Spec.output_shows_task_verbatim. intros H.
  destruct H as (_ & Hc & _).
  - reflexivity.
  - left. reflexivity.
  - intros s. reflexivity.
  - vm_compute in Hc. discriminate Hc.
Qed.






(** C9.  The value of [-add] when the flag is not given is the text
    "Something worth doing", which is not JSON: a run without the flag
    ends with status 1 and "Invalid JSON passed to ./todo-app". *)
Theorem C9_default_value_is_not_JSON (e : Env) :
  todoItem None = "Something worth doing" /\
  json.parse (todoItem None) = None /\
  run e None = Spec.fatal "Invalid JSON passed to ./todo-app" e no_output.
Proof.
  split; [reflexivity|]. split; [reflexivity|].
  rewrite run_unfold.
  rewrite (ParseInput_invalid (todoItem None) e no_output); [reflexivity|].
  left. reflexivity.
Qed.

(** C10.  When the input deserialises to a raw item with an empty due
    text, the item has the zero time, and the output, on a standard
    output that takes everything, shows it as any other date: the line
    ["Due": "0001-01-01T00:00:00Z"]. *)
Theorem C10_absent_due_is_printed_as_zero_time (e : Env) (input : string)
  (raw : TodoItem) :
  json_Unmarshal input (mkTodoItem "" "") = (raw, None) ->
  TodoItem_Due raw = "" ->
  reliable_stdout e ->
  ParseInput input e no_output =
    Returns {| Todo := TodoItem_Todo raw; Due := time.zero |} no_output /\
  run e (Some input) =
    Returns tt {| stdout := Spec.rendering (encodeString O (TodoItem_Todo raw))
                              "0001-01-01T00:00:00Z";
                  stderr := "" |} /\
  contains Spec.zero_due_line (stdout (streams (run e (Some input)))) = true.
Proof.
  intros Hu Hd Hr. split.
  { rewrite ParseInput_unfold, Hu, Hd. reflexivity. }
  assert (run e (Some input) =
          Returns tt {| stdout := Spec.rendering
                                    (encodeString O (TodoItem_Todo raw))
                                    "0001-01-01T00:00:00Z";
                        stderr := "" |}) as Hrun.
  { rewrite (run_success e input raw Hu); [|rewrite Hd; discriminate|exact Hr].
    rewrite Hd. reflexivity. }
  rewrite Hrun. split; [reflexivity|].
  cbn [streams stdout]. apply contains_zero_due_line.
Qed.

Lemma C10_witness :
  ParseInput (txt "{'todo': 'Write spec'}") env0 no_output =
    Returns {| Todo := "Write spec"; Due := time.zero |} no_output /\
  run env0 (Some (txt "{'todo': 'Write spec'}")) =
    Returns tt {| stdout := Spec.rendering "Write spec" "0001-01-01T00:00:00Z";
                  stderr := "" |} /\
  contains Spec.zero_due_line
    (stdout (streams (run env0 (Some (txt "{'todo': 'Write spec'}"))))) = true.
Proof.
  apply (C10_absent_due_is_printed_as_zero_time env0
           (txt "{'todo': 'Write spec'}") (mkTodoItem "Write spec" "")).
  - reflexivity.
  - reflexivity.
  - intros s. reflexivity.
Defined.

(** * Further properties of the program *)

(** ** [parseDuedate]: the zero time, and telling dates apart *)

Lemma digit_of_val c v :
  isDigit c = true -> digitVal c = v -> c = digitChr v.
Proof. intros Hc <-. symmetry. now apply digitChr_digitVal. Qed.

Lemma is_ymd_inj s s' y m d :
  Spec.is_ymd s y m d -> Spec.is_ymd s' y m d -> s = s'.
Proof.
  intros H H'.
  pose proof (format_ymd _ _ _ _ H) as F.
  rewrite (format_ymd _ _ _ _ H') in F.
  destruct H as (a3 & a2 & a1 & a0 & b1 & b0 & c1 & c0 & -> & _).
  destruct H' as (a3' & a2' & a1' & a0' & b1' & b0' & c1' & c0' & -> & _).
  cbn [append] in F. injection F as <- <- <- <- <- <- <- <-. reflexivity.
Qed.

Lemma ParseDueDate_nonempty d t :
  d <> "" -> Spec.ParseDueDate d = Some t ->
  exists y m dd, t = time.mkTime y m dd 0 0 0 0 /\ Spec.is_ymd d y m dd.
Proof.
  unfold Spec.ParseDueDate. destruct d as [|c r]; [congruence|]. intros _.
  destruct (Spec.calendar_date (String c r)) as [[[y m] dd]|] eqn:Hc;
    [|discriminate].
  intros [= <-]. apply calendar_date_Some in Hc as (Hy & _).
  exists y, m, dd. split; [reflexivity|exact Hy].
Qed.

Lemma parseDuedate_returns d e w t w' :
  parseDuedate d e w = Returns t w' <-> Spec.ParseDueDate d = Some t /\ w' = w.
Proof.
  rewrite parseDuedate_spec.
  destruct (Spec.ParseDueDate d) as [t0|].
  - split; [intros [= -> ->]; auto|intros [[= ->] ->]; reflexivity].
  - unfold Spec.fatal. split; [discriminate|intros [[=] _]].
Qed.

(** X1.  [parseDuedate] returns the zero time, the value that stands for
    "no due date", for exactly two texts: the empty one and 0001-01-01.
    A task due on that day cannot be told from a task without a date. *)
Theorem X1_zero_time_has_two_sources (dueDate : string) (e : Env)
  (w : Streams) :
  parseDuedate dueDate e w = Returns time.zero w <->
  dueDate = "" \/ dueDate = "0001-01-01".
Proof.
  split.
  - intros H. apply parseDuedate_returns in H as [H _].
    destruct dueDate as [|c r]; [now left|right].
    apply ParseDueDate_nonempty in H as (y & m & d & Hz & Hy); [|discriminate].
    injection Hz as <- <- <-.
    destruct Hy as (y3 & y2 & y1 & y0 & m1 & m0 & d1 & d0 & -> & Hd & Ey & Em & Ed).
    cbn [forallb] in Hd. rewrite !andb_true_iff in Hd.
    destruct Hd as (D3 & D2 & D1 & D0 & M1 & M0 & Dd1 & Dd0 & _).
    pose proof (isDigit_range _ D3). pose proof (isDigit_range _ D2).
    pose proof (isDigit_range _ D1). pose proof (isDigit_range _ D0).
    pose proof (isDigit_range _ M1). pose proof (isDigit_range _ M0).
    pose proof (isDigit_range _ Dd1). pose proof (isDigit_range _ Dd0).
    rewrite (digit_of_val y3 0 D3), (digit_of_val y2 0 D2),
            (digit_of_val y1 0 D1), (digit_of_val y0 1 D0),
            (digit_of_val m1 0 M1), (digit_of_val m0 1 M0),
            (digit_of_val d1 0 Dd1), (digit_of_val d0 1 Dd0) by lia.
    reflexivity.
  - intros [-> | ->]; reflexivity.
Qed.

Lemma X1_witness :
  parseDuedate "0001-01-01" env0 no_output = Returns time.zero no_output.
Proof.
  apply (proj2 (X1_zero_time_has_two_sources "0001-01-01" env0 no_output)).
  right. reflexivity.
Defined.

(** X2.  Two due texts that are not empty and that [parseDuedate] turns
    into the same time are the same text: apart from the zero time, a
    time says which text it came from. *)
Theorem X2_parseDuedate_is_injective (d1 d2 : string) (t : time.Time)
  (e : Env) (w : Streams) :
  d1 <> "" -> d2 <> "" ->
  parseDuedate d1 e w = Returns t w ->
  parseDuedate d2 e w = Returns t w ->
  d1 = d2.
Proof.
  intros N1 N2 H1 H2.
  apply parseDuedate_returns in H1 as [H1 _].
  apply parseDuedate_returns in H2 as [H2 _].
  apply ParseDueDate_nonempty in H1 as (y & m & d & -> & Hy); [|exact N1].
  apply ParseDueDate_nonempty in H2 as (y' & m' & d' & [= <- <- <-] & Hy');
    [|exact N2].
  exact (is_ymd_inj _ _ _ _ _ Hy Hy').
Qed.

Lemma X2_witness : "2020-02-02" = "2020-02-02".
Proof.
  apply (X2_parseDuedate_is_injective "2020-02-02" "2020-02-02"
           (time.mkTime 2020 2 2 0 0 0 0) env0 no_output);
    [discriminate | discriminate | reflexivity | reflexivity].
Defined.

(** ** [ParseInput]: the second error, and which error comes first *)

Lemma fatal_messages_differ e w :
  Spec.fatal (A := ParsedTodoItem) "Invalid JSON passed to ./todo-app" e w <>
  Spec.fatal "Badly formed due date." e w.
Proof.
  unfold Spec.fatal. intros [= H].
  apply append_inv_head, append_inv_head in H. discriminate H.
Qed.

(** X3.  [ParseInput] ends the process with "Badly formed due date."
    exactly when the input was deserialised without error and the due
    text of the raw item is neither empty nor a calendar date.  The JSON
    is judged first: input with a wrong value for a key and a bad date
    is reported as invalid JSON. *)
Theorem X3_bad_date_only_after_good_JSON (input : string) (e : Env)
  (w : Streams) :
  ParseInput input e w = Spec.fatal "Badly formed due date." e w <->
  exists raw, json_Unmarshal input (mkTodoItem "" "") = (raw, None) /\
              Spec.ParseDueDate (TodoItem_Due raw) = None.
Proof.
  rewrite ParseInput_unfold.
  destruct (json_Unmarshal input (mkTodoItem "" "")) as [raw [err|]] eqn:Hu.
  - split.
    + intros H. exfalso. exact (fatal_messages_differ e w H).
    + intros (raw' & [=] & _).
  - destruct (Spec.ParseDueDate (TodoItem_Due raw)) as [d|] eqn:Hd.
    + split; [discriminate|]. intros (raw' & [= <-] & H). congruence.
    + split; [|reflexivity]. intros _. exists raw. auto.
Qed.

Lemma X3_witness :
  ParseInput (txt "{'todo': 'X', 'due': '2020-02-30'}") env0 no_output =
  Spec.fatal "Badly formed due date." env0 no_output.
Proof.
  apply (proj2 (X3_bad_date_only_after_good_JSON
                  (txt "{'todo': 'X', 'due': '2020-02-30'}") env0 no_output)).
  exists (mkTodoItem "X" "2020-02-30"). split; reflexivity.
Defined.

(** ** [PrettyPrintItem] and [main] *)

Lemma ParseInput_returns input e w item w' :
  ParseInput input e w = Returns item w' ->
  exists raw, json_Unmarshal input (mkTodoItem "" "") = (raw, None) /\
              Spec.ParseDueDate (TodoItem_Due raw) = Some (Due item) /\
              Todo item = TodoItem_Todo raw /\ w' = w.
Proof.
  rewrite ParseInput_unfold.
  destruct (json_Unmarshal input (mkTodoItem "" "")) as [raw [err|]];
    [discriminate|].
  destruct (Spec.ParseDueDate (TodoItem_Due raw)) as [d|] eqn:Hd;
    [|discriminate].
  intros [= <- <-]. exists raw. auto.
Qed.

(** X4.  An item that [ParseInput] has returned is always serialised:
    [json.MarshalIndent] gives a text for it, so the branch of
    [PrettyPrintItem] that returns [0] and the serialisation error is
    never taken in [main], and [PrettyPrintItem] returns what the write
    of the rendering reported. *)
Theorem X4_parsed_items_are_serialised (input : string) (e : Env)
  (w w' : Streams) (item : ParsedTodoItem) :
  ParseInput input e w = Returns item w' ->
  (exists text, json_MarshalIndent item (str1 TAB) (str1 TAB) = inl text) /\
  forall e1 w1,
    PrettyPrintItem item e1 w1 =
    os_Stdout_Write (Spec.rendering (encodeString O (Todo item))
                       (time.formatRFC3339Nano (Due item))) e1 w1.
Proof.
  intros H. apply ParseInput_returns in H as (raw & _ & Hd & _).
  apply format_due in Hd as [_ Hy].
  split.
  - unfold json_MarshalIndent, time.MarshalJSON.
    replace ((time.year (Due item) <? 0) || (10000 <=? time.year (Due item)))
      with false by lia.
    eexists. reflexivity.
  - intros e1 w1. now apply PrettyPrintItem_formatted.
Qed.

Lemma X4_witness :
  (exists text,
     json_MarshalIndent {| Todo := "Practice Go";
                           Due := time.mkTime 2020 2 2 0 0 0 0 |}
       (str1 TAB) (str1 TAB) = inl text) /\
  forall e1 w1,
    PrettyPrintItem {| Todo := "Practice Go";
                       Due := time.mkTime 2020 2 2 0 0 0 0 |} e1 w1 =
    os_Stdout_Write (Spec.rendering "Practice Go" "2020-02-02T00:00:00Z") e1 w1.
Proof.
  apply (X4_parsed_items_are_serialised
           (txt "{'todo': 'Practice Go', 'due': '2020-02-02'}")
           env0 no_output no_output).
  reflexivity.
Defined.

(** X5.  Once [flag.Parse()] has returned, a run ends in one of four
    ways, whatever the value of [-add], the time, and what standard
    output does (standard error taking what it is given): it returns,
    with nothing on standard error; or the write to standard output ends
    it by SIGPIPE, with nothing on standard error; or it exits with
    status 1, nothing on standard output, and on standard error the one
    line "Invalid JSON passed to ./todo-app"; or the same with the one
    line "Badly formed due date.".  It never writes to both streams. *)
Theorem X5_four_ways_to_end (e : Env) (add : option string) :
  (exists w, run e add = Returns tt w /\ stderr w = "") \/
  (exists w, run e add = Exits (killed_by SIGPIPE) w /\ stderr w = "") \/
  run e add = Spec.fatal "Invalid JSON passed to ./todo-app" e no_output \/
  run e add = Spec.fatal "Badly formed due date." e no_output.
Proof.
  rewrite run_unfold, ParseInput_unfold.
  destruct (json_Unmarshal (todoItem add) (mkTodoItem "" "")) as [raw [err|]].
  - right. right. left. reflexivity.
  - destruct (Spec.ParseDueDate (TodoItem_Due raw)) as [d|].
    + destruct (PrettyPrintItem_ends
                  {| Todo := TodoItem_Todo raw; Due := d |} e no_output)
        as [(r & w' & -> & Herr) | (w' & -> & Herr)].
      * left. exists w'. split; [reflexivity|exact Herr].
      * right. left. exists w'. split; [reflexivity|exact Herr].
    + right. right. right. reflexivity.
Qed.

(** ** [ParseInput]: the members of the object *)

Lemma Ascii_eqb_trans a b c :
  Ascii.eqb a b = true -> Ascii.eqb b c = true -> Ascii.eqb a c = true.
Proof. intros ->%Ascii.eqb_eq H. exact H. Qed.

Lemma equalFold_sym a b : equalFold a b = equalFold b a.
Proof.
  revert b. induction a as [|x a IH]; intros [|y b]; cbn [equalFold];
    try reflexivity.
  rewrite IH, (Ascii.eqb_sym (toUpper x)). reflexivity.
Qed.

Lemma equalFold_trans a b c :
  equalFold a b = true -> equalFold b c = true -> equalFold a c = true.
Proof.
  revert b c. induction a as [|x a IH]; intros [|y b] [|z c];
    cbn [equalFold]; try discriminate; try reflexivity.
  intros [H1 H2]%andb_prop [H3 H4]%andb_prop.
  rewrite (Ascii_eqb_trans _ _ _ H1 H3), (IH _ _ H2 H4). reflexivity.
Qed.

Lemma equalFold_same a b name :
  equalFold a b = true -> equalFold a name = equalFold b name.
Proof.
  intros H.
  destruct (equalFold b name) eqn:Hb.
  - exact (equalFold_trans _ _ _ H Hb).
  - destruct (equalFold a name) eqn:Ha; [|reflexivity].
    rewrite equalFold_sym in H.
    rewrite (equalFold_trans _ _ _ H Ha) in Hb. discriminate Hb.
Qed.

(** The field of a key, by letter-case-blind comparison alone. *)
Lemma fieldOf_fold key :
  fieldOf key =
  if equalFold key "todo" then Some fieldTodo
  else if equalFold key "due" then Some fieldDue
  else None.
Proof.
  unfold fieldOf.
  destruct (String.eqb key "todo") eqn:E1.
  { now rewrite (String_eqb_equalFold _ _ E1). }
  destruct (String.eqb key "due") eqn:E2; [|reflexivity].
  apply String.eqb_eq in E2. subst key. reflexivity.
Qed.

Lemma fieldOf_same a b : equalFold a b = true -> fieldOf a = fieldOf b.
Proof.
  intros H. rewrite !fieldOf_fold.
  rewrite (equalFold_same a b "todo" H), (equalFold_same a b "due" H).
  reflexivity.
Qed.

Lemma storeMember_same_field acc k k' v :
  fieldOf k = fieldOf k' -> storeMember acc (k, v) = storeMember acc (k', v).
Proof. intros H. destruct acc. cbn [storeMember]. now rewrite H. Qed.

Lemma storeMember_unknown acc k v :
  fieldOf k = None -> storeMember acc (k, v) = acc.
Proof. intros H. destruct acc. cbn [storeMember]. now rewrite H. Qed.

Lemma ParseInput_of_store input input' e w :
  json_Unmarshal input (mkTodoItem "" "") =
  json_Unmarshal input' (mkTodoItem "" "") ->
  ParseInput input e w = ParseInput input' e w.
Proof. intros H. rewrite !ParseInput_unfold, H. reflexivity. Qed.

(** X6.  A member whose key names neither field is skipped: the input
    with it and the input without it are parsed alike, whatever its
    value and wherever it stands.  No key is refused. *)
Theorem X6_unknown_members_are_skipped (input input' : string)
  (before after : list (string * json.Value)) (k : string) (v : json.Value)
  (e : Env) (w : Streams) :
  json.parse input = Some (json.Object (before ++ (k, v) :: after)) ->
  json.parse input' = Some (json.Object (before ++ after)) ->
  equalFold k "todo" || equalFold k "due" = false ->
  ParseInput input e w = ParseInput input' e w.
Proof.
  intros H H' Hk. apply ParseInput_of_store.
  unfold json_Unmarshal. rewrite H, H'. cbn [storeTodoItem].
  rewrite !fold_left_app. cbn [fold_left].
  rewrite storeMember_unknown; [reflexivity|].
  now apply fieldOf_None.
Qed.

Lemma X6_witness :
  ParseInput (txt "{'id': 1, 'todo': 'Practice Go', 'due': '2020-02-02'}")
             env0 no_output =
  ParseInput (txt "{'todo': 'Practice Go', 'due': '2020-02-02'}")
             env0 no_output.
Proof.
  apply (X6_unknown_members_are_skipped
           (txt "{'id': 1, 'todo': 'Practice Go', 'due': '2020-02-02'}")
           (txt "{'todo': 'Practice Go', 'due': '2020-02-02'}")
           []
           [("todo", json.Str "Practice Go"); ("due", json.Str "2020-02-02")]
           "id" (json.Number "1") env0 no_output);
    reflexivity.
Defined.

(** X7.  Keys are read without regard to letter case: replacing the key
    of a member by one that differs from it only in the case of its
    letters changes nothing in what [ParseInput] does. *)
Theorem X7_keys_ignore_letter_case (input input' : string)
  (before after : list (string * json.Value)) (k k' : string)
  (v : json.Value) (e : Env) (w : Streams) :
  json.parse input = Some (json.Object (before ++ (k, v) :: after)) ->
  json.parse input' = Some (json.Object (before ++ (k', v) :: after)) ->
  equalFold k k' = true ->
  ParseInput input e w = ParseInput input' e w.
Proof.
  intros H H' Hk. apply ParseInput_of_store.
  unfold json_Unmarshal. rewrite H, H'. cbn [storeTodoItem].
  rewrite !fold_left_app. cbn [fold_left].
  rewrite (storeMember_same_field _ k k' v (fieldOf_same k k' Hk)).
  reflexivity.
Qed.

Lemma X7_witness :
  ParseInput (txt "{'TODO': 'Practice Go', 'due': '2020-02-02'}")
             env0 no_output =
  ParseInput (txt "{'todo': 'Practice Go', 'due': '2020-02-02'}")
             env0 no_output.
Proof.
  apply (X7_keys_ignore_letter_case
           (txt "{'TODO': 'Practice Go', 'due': '2020-02-02'}")
           (txt "{'todo': 'Practice Go', 'due': '2020-02-02'}")
           [] [("due", json.Str "2020-02-02")]
           "TODO" "todo" (json.Str "Practice Go") env0 no_output);
    reflexivity.
Defined.

Lemma storeMember_last_text acc k name s :
  fieldOf k = Some name ->
  fst (storeMember acc (k, json.Str s)) =
  match name with
  | fieldTodo => mkTodoItem s (TodoItem_Due (fst acc))
  | fieldDue => mkTodoItem (TodoItem_Todo (fst acc)) s
  end.
Proof.
  intros H. destruct acc as [item saved]. cbn [storeMember]. rewrite H.
  destruct name; reflexivity.
Qed.

(** X8.  When the object names the task more than once, the last string
    is the task: whatever the members before it are, an item that
    [ParseInput] returns for an object ending in a [todo] member with
    the string [T] has the task [T]. *)
Theorem X8_last_task_wins (input : string)
  (before : list (string * json.Value)) (k T : string)
  (e : Env) (w w' : Streams) (item : ParsedTodoItem) :
  json.parse input = Some (json.Object (before ++ [(k, json.Str T)])) ->
  equalFold k "todo" = true ->
  ParseInput input e w = Returns item w' ->
  Todo item = T.
Proof.
  intros H Hk Hp.
  apply ParseInput_returns in Hp as (raw & Hu & _ & -> & _).
  unfold json_Unmarshal in Hu. rewrite H in Hu. cbn [storeTodoItem] in Hu.
  rewrite fold_left_app in Hu. cbn [fold_left] in Hu.
  apply (f_equal fst) in Hu. cbn [fst] in Hu.
  rewrite (storeMember_last_text _ k fieldTodo T) in Hu.
  - now subst raw.
  - rewrite fieldOf_fold, Hk. reflexivity.
Qed.

Lemma X8_witness :
  Todo {| Todo := "second"; Due := time.zero |} = "second".
Proof.
  apply (X8_last_task_wins
           (txt "{'todo': 'first', 'todo': 'second'}")
           [("todo", json.Str "first")] "todo" "second"
           env0 no_output no_output);
    reflexivity.
Defined.

Lemma storeMember_keeps_Todo ms acc :
  existsb (More.gives "todo") ms = false ->
  TodoItem_Todo (fst (fold_left storeMember ms acc)) = TodoItem_Todo (fst acc).
Proof.
  revert acc. induction ms as [|[k v] ms IH]; intros acc; [reflexivity|].
  cbn [existsb fold_left]. intros [Hkv Hms]%orb_false_elim.
  rewrite (IH _ Hms). destruct acc as [item saved].
  cbn [storeMember fst]. rewrite fieldOf_fold.
  unfold More.gives in Hkv. cbn [fst snd] in Hkv.
  destruct (equalFold k "todo").
  - cbn [andb] in Hkv. destruct v; try discriminate Hkv; reflexivity.
  - destruct (equalFold k "due"); [|reflexivity].
    destruct (storeString "due" v (TodoItem_Due item)). reflexivity.
Qed.

Lemma storeMember_keeps_Due ms acc :
  existsb (More.gives "due") ms = false ->
  TodoItem_Due (fst (fold_left storeMember ms acc)) = TodoItem_Due (fst acc).
Proof.
  revert acc. induction ms as [|[k v] ms IH]; intros acc; [reflexivity|].
  cbn [existsb fold_left]. intros [Hkv Hms]%orb_false_elim.
  rewrite (IH _ Hms). destruct acc as [item saved].
  cbn [storeMember fst]. rewrite fieldOf_fold.
  unfold More.gives in Hkv. cbn [fst snd] in Hkv.
  destruct (equalFold k "todo") eqn:Et.
  - destruct (storeString "todo" v (TodoItem_Todo item)). reflexivity.
  - destruct (equalFold k "due"); [|reflexivity].
    cbn [andb] in Hkv. destruct v; try discriminate Hkv; reflexivity.
Qed.

(** X9.  Nothing demands either key.  For an object in which no member
    gives the task a string, an item that [ParseInput] returns has the
    empty task; for an object in which no member gives the due text a
    string, it has the zero time. *)
Theorem X9_missing_keys_are_empty (input : string)
  (members : list (string * json.Value)) (e : Env) (w w' : Streams)
  (item : ParsedTodoItem) :
  json.parse input = Some (json.Object members) ->
  ParseInput input e w = Returns item w' ->
  (existsb (More.gives "todo") members = false -> Todo item = "") /\
  (existsb (More.gives "due") members = false -> Due item = time.zero).
Proof.
  intros H Hp.
  apply ParseInput_returns in Hp as (raw & Hu & Hd & -> & _).
  unfold json_Unmarshal in Hu. rewrite H in Hu. cbn [storeTodoItem] in Hu.
  apply (f_equal fst) in Hu. cbn [fst] in Hu. subst raw.
  split; intros Hno.
  - now rewrite storeMember_keeps_Todo.
  - rewrite storeMember_keeps_Due in Hd by exact Hno.
    cbn in Hd. congruence.
Qed.

Lemma X9_witness :
  (existsb (More.gives "todo") [("todo", json.Null); ("id", json.Number "7")]
     = false ->
   Todo {| Todo := ""; Due := time.zero |} = "") /\
  (existsb (More.gives "due") [("todo", json.Null); ("id", json.Number "7")]
     = false ->
   Due {| Todo := ""; Due := time.zero |} = time.zero).
Proof.
  apply (X9_missing_keys_are_empty
           (txt "{'todo': null, 'id': 7}")
           [("todo", json.Null); ("id", json.Number "7")]
           env0 no_output no_output);
    reflexivity.
Defined.

(** ** [PrettyPrintItem]: the bytes of the printed task *)











Lemma plain_app a b : Spec.plain (a ++ b) = Spec.plain a && Spec.plain b.
Proof.
  induction a as [|c a IH]; cbn [append Spec.plain]; [reflexivity|].
  now rewrite IH, andb_assoc.
Qed.

Lemma due_text_plain D :
  D = "" \/ Spec.calendar_date D <> None -> Spec.plain (Spec.due_text D) = true.
Proof.
  intros [-> | H]; [reflexivity|].
  pose proof (calendar_date_plain D H) as Hp.
  destruct D as [|c r]; [reflexivity|].
  unfold Spec.due_text. rewrite plain_app, Hp. reflexivity.
Qed.

Lemma ParseDueDate_cases D :
  Spec.ParseDueDate D <> None -> D = "" \/ Spec.calendar_date D <> None.
Proof.
  unfold Spec.ParseDueDate. destruct D as [|c r]; [now left|].
  intros H. right. destruct (Spec.calendar_date (String c r)); [discriminate|].
  now contradiction H.
Qed.



(** ** What is printed, read again *)

Lemma lex_run_app st a b :
  More.lex_run st (a ++ b) =
  match More.lex_run st a with
  | None => None
  | Some (st', toks) =>
      match More.lex_run st' b with
      | None => None
      | Some (st'', more) => Some (st'', (toks ++ more)%list)
      end
  end.
Proof.
  revert st. induction a as [|c a IH]; intros st; cbn [append More.lex_run].
  - destruct (More.lex_run st b) as [[st' more]|]; reflexivity.
  - destruct (json.lex_step st c) as [[st1 toks]|]; [|reflexivity].
    rewrite IH. destruct (More.lex_run st1 a) as [[st2 toks2]|]; [|reflexivity].
    destruct (More.lex_run st2 b) as [[st3 toks3]|]; [|reflexivity].
    now rewrite app_assoc.
Qed.

Lemma lex_after_run st a r :
  json.lex st (a ++ r) =
  match More.lex_run st a with
  | None => None
  | Some (st', toks) =>
      match json.lex st' r with
      | None => None
      | Some more => Some (toks ++ more)%list
      end
  end.
Proof.
  revert st. induction a as [|c a IH]; intros st;
    cbn [append json.lex More.lex_run].
  - destruct (json.lex st r); reflexivity.
  - destruct (json.lex_step st c) as [[st1 toks]|]; [|reflexivity].
    rewrite IH. destruct (More.lex_run st1 a) as [[st2 toks2]|]; [|reflexivity].
    destruct (json.lex st2 r); [|reflexivity].
    now rewrite app_assoc.
Qed.

(** One byte of ASCII, as the output writes it, is taken by the lexer
    inside a string, and read back as that byte. *)
Lemma lex_run_piece c acc :
  More.is_ascii c = true ->
  More.lex_run (json.InStr acc json.InString) (More.piece c) =
  Some (json.InStr (rev (list_ascii_of_string (More.piece c)) ++ acc)%list
                   json.InString, []).
Proof.
  destruct c as [[] [] [] [] [] [] [] []]; intros H;
    try (vm_compute in H; discriminate H); reflexivity.
Qed.

Lemma unquote_piece c r :
  More.is_ascii c = true ->
  json.unquote O (More.piece c ++ r) = option_map (String c) (json.unquote O r).
Proof.
  destruct c as [[] [] [] [] [] [] [] []]; intros H;
    try (vm_compute in H; discriminate H); reflexivity.
Qed.

Lemma encodeString_ascii c r :
  More.is_ascii c = true ->
  encodeString O (String c r) = More.piece c ++ encodeString O r.
Proof.
  unfold More.is_ascii. intros H. cbn [encodeString]. rewrite H. reflexivity.
Qed.

Lemma unquote_encoded T :
  More.all_bytes More.is_ascii T = true ->
  json.unquote O (encodeString O T) = Some T.
Proof.
  induction T as [|c T IH]; [reflexivity|].
  cbn [More.all_bytes]. intros [Hc HT]%andb_prop.
  rewrite (encodeString_ascii c T Hc), (unquote_piece c _ Hc), (IH HT).
  reflexivity.
Qed.

Lemma lex_run_encoded T acc :
  More.all_bytes More.is_ascii T = true ->
  exists acc',
    More.lex_run (json.InStr acc json.InString) (encodeString O T) =
      Some (json.InStr acc' json.InString, []) /\
    json.text_of acc' = json.text_of acc ++ encodeString O T.
Proof.
  revert acc. induction T as [|c T IH]; intros acc.
  - intros _. exists acc. split; [reflexivity|]. now rewrite append_nil_r.
  - cbn [More.all_bytes]. intros [Hc HT]%andb_prop.
    rewrite (encodeString_ascii c T Hc), lex_run_app, (lex_run_piece c acc Hc).
    destruct (IH (rev (list_ascii_of_string (More.piece c)) ++ acc)%list HT)
      as (acc' & -> & Htext).
    exists acc'. split; [reflexivity|].
    rewrite Htext, text_of_rev_append, append_assoc. reflexivity.
Qed.

(** A string literal of the output is one string token, the task. *)
Lemma lex_encoded_literal T rest :
  More.all_bytes More.is_ascii T = true ->
  json.lex json.Between (String DQ (encodeString O T ++ String DQ rest)) =
  match json.lex json.Between rest with
  | Some more => Some (json.TString T :: more)
  | None => None
  end.
Proof.
  intros HT.
  change (json.lex json.Between
            (String DQ (encodeString O T ++ String DQ rest)))
    with (match json.lex (json.InStr [] json.InString)
                         (encodeString O T ++ String DQ rest) with
          | Some more => Some ([] ++ more)%list
          | None => None
          end).
  rewrite lex_after_run.
  destruct (lex_run_encoded T [] HT) as (acc' & -> & Htext).
  cbn [json.lex json.lex_step]. rewrite Ascii.eqb_refl, Htext.
  cbn [json.text_of rev string_of_list_ascii append].
  rewrite (unquote_encoded T HT).
  destruct (json.lex json.Between rest); reflexivity.
Qed.

Lemma MarshalIndent_text item :
  0 <= time.year (Due item) < 10000 ->
  json_MarshalIndent item (str1 TAB) (str1 TAB) =
  inl (let T := Todo item in
       let due := time.formatRFC3339Nano (Due item) in
     String "{" (String LF (String TAB (String TAB (String DQ ("Todo"
     ++ String DQ (String ":" (String " " (String DQ ((encodeString O
     T) ++ String DQ (String "," (String LF (String TAB (String TAB
     (String DQ ("Due" ++ String DQ (String ":" (String " " (String
     DQ (due ++ String DQ (String LF (String TAB (String "}"
     ""))))))))))))))))))))))).
Proof.
  intros Hy. unfold json_MarshalIndent, time.MarshalJSON.
  replace ((time.year (Due item) <? 0) || (10000 <=? time.year (Due item)))
    with false by lia.
  unfold quote. cbn. rewrite !append_assoc. reflexivity.
Qed.

Lemma parse_item_text T due :
  More.all_bytes More.is_ascii T = true -> Spec.plain due = true ->
  json.parse
    (
     String "{" (String LF (String TAB (String TAB (String DQ ("Todo"
     ++ String DQ (String ":" (String " " (String DQ ((encodeString O
     T) ++ String DQ (String "," (String LF (String TAB (String TAB
     (String DQ ("Due" ++ String DQ (String ":" (String " " (String
     DQ (due ++ String DQ (String LF (String TAB (String "}"
     ""))))))))))))))))))))))) =
  Some (json.Object [("Todo", json.Str T); ("Due", json.Str due)]).
Proof.
  intros HT Hdue. unfold json.parse.
  rewrite (lex_punct "{" json.TLBrace) by reflexivity.
  rewrite (lex_space LF), (lex_space TAB), (lex_space TAB) by reflexivity.
  rewrite (lex_plain_literal "Todo") by reflexivity.
  rewrite (lex_punct ":" json.TColon) by reflexivity.
  rewrite (lex_space " ") by reflexivity.
  rewrite (lex_encoded_literal T) by assumption.
  rewrite (lex_punct "," json.TComma) by reflexivity.
  rewrite (lex_space LF), (lex_space TAB), (lex_space TAB) by reflexivity.
  rewrite (lex_plain_literal "Due") by reflexivity.
  rewrite (lex_punct ":" json.TColon) by reflexivity.
  rewrite (lex_space " ") by reflexivity.
  rewrite (lex_plain_literal due) by assumption.
  rewrite (lex_space LF), (lex_space TAB) by reflexivity.
  rewrite (lex_punct "}" json.TRBrace) by reflexivity.
  reflexivity.
Qed.

Lemma due_text_is_no_date D :
  D = "" \/ Spec.calendar_date D <> None ->
  Spec.ParseDueDate (Spec.due_text D) = None.
Proof.
  intros [-> | H]; [reflexivity|].
  destruct (Spec.calendar_date D) as [[[y m] d]|] eqn:Hc; [|congruence].
  apply calendar_date_Some in Hc as (Hy & _).
  destruct Hy as (y3 & y2 & y1 & y0 & m1 & m0 & d1 & d0 & -> & _).
  reflexivity.
Qed.

Lemma printed_item input e w w' item :
  ParseInput input e w = Returns item w' ->
  More.all_bytes More.is_ascii (Todo item) = true ->
  exists text D,
    json_MarshalIndent item (str1 TAB) (str1 TAB) = inl text /\
    json.parse text =
      Some (json.Object [("Todo", json.Str (Todo item));
                         ("Due", json.Str (Spec.due_text D))]) /\
    time.formatRFC3339Nano (Due item) = Spec.due_text D /\
    (D = "" \/ Spec.calendar_date D <> None).
Proof.
  intros Hp HT.
  apply ParseInput_returns in Hp as (raw & _ & Hd & _).
  assert (D_ok : TodoItem_Due raw = "" \/
                 Spec.calendar_date (TodoItem_Due raw) <> None)
    by (apply ParseDueDate_cases; congruence).
  apply format_due in Hd as [Hf Hy].
  eexists. exists (TodoItem_Due raw).
  split; [apply (MarshalIndent_text item Hy)|].
  split; [|auto]. cbv zeta. rewrite Hf.
  apply parse_item_text; [exact HT|now apply due_text_plain].
Qed.

(** X11.  What [PrettyPrintItem] prints after its first line is JSON, and
    it says what the item is: for an item that [ParseInput] has returned,
    with a task of ASCII bytes (any of them: quotes, backslashes, control
    characters), the text of [json.MarshalIndent] is the object with the
    member [Todo], the task, and the member [Due], the date as printed.
    The escapes lose nothing. *)
Theorem X11_output_reads_back_as_the_item (input : string) (e : Env)
  (w w' : Streams) (item : ParsedTodoItem) :
  ParseInput input e w = Returns item w' ->
  More.all_bytes More.is_ascii (Todo item) = true ->
  exists text,
    json_MarshalIndent item (str1 TAB) (str1 TAB) = inl text /\
    json.parse text =
      Some (json.Object
              [("Todo", json.Str (Todo item));
               ("Due", json.Str (time.formatRFC3339Nano (Due item)))]).
Proof.
  intros Hp HT.
  destruct (printed_item input e w w' item Hp HT)
    as (text & D & Hm & Hparse & Hf & _).
  exists text. rewrite Hf. auto.
Qed.

Lemma X11_witness :
  exists text,
    json_MarshalIndent {| Todo := txt "say 'a<b'"; Due := time.zero |}
      (str1 TAB) (str1 TAB) = inl text /\
    json.parse text =
      Some (json.Object
              [("Todo", json.Str (txt "say 'a<b'"));
               ("Due", json.Str "0001-01-01T00:00:00Z")]).
Proof.
  apply (X11_output_reads_back_as_the_item
           (txt "{'todo': 'say \'a<b\''}") env0 no_output no_output);
    reflexivity.
Defined.

(** X12.  The program does not take back what it prints.  For an item
    that [ParseInput] has returned, with a task of ASCII bytes, the JSON
    that is printed for it is accepted as JSON, its keys [Todo] and [Due]
    are taken for [todo] and [due], and its date, which has a time of
    day, ends the process with "Badly formed due date.". *)
Theorem X12_output_is_not_accepted_as_input (input : string) (e : Env)
  (w w' : Streams) (item : ParsedTodoItem) :
  ParseInput input e w = Returns item w' ->
  More.all_bytes More.is_ascii (Todo item) = true ->
  exists text,
    json_MarshalIndent item (str1 TAB) (str1 TAB) = inl text /\
    forall e1 w1,
      ParseInput text e1 w1 = Spec.fatal "Badly formed due date." e1 w1.
Proof.
  intros Hp HT.
  destruct (printed_item input e w w' item Hp HT)
    as (text & D & Hm & Hparse & _ & HD).
  exists text. split; [exact Hm|]. intros e1 w1.
  rewrite ParseInput_unfold. unfold json_Unmarshal. rewrite Hparse.
  cbn [storeTodoItem fold_left].
  change (storeMember
            (storeMember (mkTodoItem "" "", None)
               ("Todo", json.Str (Todo item)))
            ("Due", json.Str (Spec.due_text D)))
    with (mkTodoItem (Todo item) (Spec.due_text D), @None UnmarshalError).
  cbn [TodoItem_Due]. now rewrite (due_text_is_no_date D HD).
Qed.

Lemma X12_witness :
  exists text,
    json_MarshalIndent {| Todo := "Practice Go";
                          Due := time.mkTime 2020 2 2 0 0 0 0 |}
      (str1 TAB) (str1 TAB) = inl text /\
    forall e1 w1,
      ParseInput text e1 w1 = Spec.fatal "Badly formed due date." e1 w1.
Proof.
  apply (X12_output_is_not_accepted_as_input
           (txt "{'todo': 'Practice Go', 'due': '2020-02-02'}")
           env0 no_output no_output);
    reflexivity.
Defined.

(** ** From the command line to standard output *)

(** X13.  For a task [T] of bytes that need no escape and a due text [D]
    that is empty or a calendar date, the command line
    [{"todo": "T", "due": "D"}] is accepted, and on a standard output
    that takes everything the run prints exactly the rendering with [T]
    as it was written and the date [D] followed by T00:00:00Z (or the
    zero time when [D] is empty), and nothing on standard error. *)
Theorem X13_plain_input_is_echoed (e : Env) (T D : string) :
  Spec.plain T = true ->
  (D = "" \/ Spec.calendar_date D <> None) ->
  reliable_stdout e ->
  run e (Some (Spec.object_text T D)) =
  Returns tt {| stdout := Spec.rendering T (Spec.due_text D); stderr := "" |}.
Proof.
  intros HT HD Hr.
  assert (Spec.plain D = true) as HpD.
  { destruct HD as [-> | HD]; [reflexivity|now apply calendar_date_plain]. }
  (* the text is the object with the two members *)
  pose proof (parse_todo_due T D HT HpD) as Hparse.
  rewrite (run_object e _ T D Hparse HD Hr).
  (* and the task is printed without escapes *)
  now rewrite (encodeString_plain T HT).
Qed.

Lemma X13_witness :
  run env0 (Some (Spec.object_text "Practice Go" "2020-02-02")) =
  Returns tt {| stdout := Spec.rendering "Practice Go"
                            (Spec.due_text "2020-02-02");
                stderr := "" |}.
Proof.
  apply (X13_plain_input_is_echoed env0 "Practice Go" "2020-02-02").
  - reflexivity.
  - right. vm_compute. discriminate.
  - intros s. reflexivity.
Defined.
